(** * mod_dirlist: directory listings of lighttpd2

    A shallow embedding of [src/modules/mod_dirlist.c] and the properties
    its specification states about it.  Definitions carry the names of the C
    functions and variables they embed.  Integers of the C code are [Z];
    [GString]s and C strings are [string]s; the chunk queue the response is
    written to is a list of chunks; the services of the host server the
    module calls (stat cache, mime types, clock, etag) are collected in one
    record that every function of the request path takes as an argument. *)

From Stdlib Require Import ZArith String Ascii List Lia Bool DecimalString Sorted.
From Equations Require Import Equations.
Import ListNotations.

Open Scope Z_scope.
Open Scope string_scope.

(** ** C strings and characters *)

(** A [gchar] holds eight bits: storing an [int] keeps it modulo 256. *)
Definition gchar (z : Z) : ascii := ascii_of_N (Z.to_N (z mod 256)).

Definition code (c : ascii) : Z := Z.of_N (N_of_ascii c).

Definition NUL : ascii := Ascii.zero.

Definition str1 (c : ascii) : string := String c EmptyString.

(** The literals of the C source are written with its escapes: in the
    argument of [lit], a backslash followed by [n], [t] or [q] stands for a
    newline, a tabulator or a double quote. *)
Fixpoint lit (s : string) : string :=
  match s with
  | String "\" (String e s') =>
      if Ascii.eqb e "n" then String "010" (lit s')
      else if Ascii.eqb e "t" then String "009" (lit s')
      else if Ascii.eqb e "q" then String "034" (lit s')
      else String "\" (String e (lit s'))
  | String c s' => String c (lit s')
  | EmptyString => EmptyString
  end.

Fixpoint concat_all (l : list string) : string :=
  match l with
  | [] => ""
  | s :: l' => s ++ concat_all l'
  end.

(** [s] occurs in [t]. *)
Fixpoint contains (s t : string) : bool :=
  String.prefix s t ||
  match t with
  | EmptyString => false
  | String _ t' => contains s t'
  end.

(** ** dirlist_format_size *)

Module SizeFormat.

(** [const gchar unit[] = "BKMGTPE"]: seven letters and the terminating NUL. *)
Definition unit : string := "BKMGTPE".

(** [*u] for the pointer [unit + u].  Index 7 is the terminator; the array
    has nothing beyond it. *)
Definition unit_at (u : nat) : ascii :=
  match String.get u unit with
  | Some c => c
  | None => NUL
  end.

(** The loop
    [while (size > 1024) { remaining = size & 1023; size >>= 10; u++; }]. *)
Equations? scale (size remaining : Z) (u : nat) : Z * Z * nat
  by wf (Z.to_nat (Z.log2 size)) lt :=
  scale size remaining u with Z_gt_le_dec size 1024 := {
    | left _ => scale (Z.shiftr size 10) (Z.land size 1023) (S u)
    | right _ => (size, remaining, u) }.
Proof.
  assert (10 <= Z.log2 size) by (apply Z.log2_le_pow2; lia).
  rewrite Z.log2_shiftr by lia.
  lia.
Qed.

(** The characters written through [buf] for the integer part. *)
Definition int_digits (size : Z) : string :=
  if size >? 99 then
    let size' := Z.rem size 100 in
    String (gchar (Z.quot size 100 + code "0"))
      (String (gchar (Z.quot size' 10 + code "0"))
         (str1 (gchar (Z.rem size' 10 + code "0"))))
  else if size >? 9 then
    String (gchar (Z.quot size 10 + code "0"))
      (str1 (gchar (Z.rem size 10 + code "0")))
  else
    str1 (gchar (size + code "0")).

(** The part of the function after the loop, on the loop's final
    [size], [remaining] and [u]. *)
Definition finish (st : Z * Z * nat) : string :=
  let '(size, remaining, u) := st in
  let remaining := Z.quot remaining 100 in
  let remaining := if remaining >? 9 then 9 else remaining in
  let '(size, remaining, u) :=
    if size >? 999 then (0, 9, S u) else (size, remaining, u) in
  int_digits size
  ++ (if Nat.eqb u 0 then "" else String "." (str1 (gchar (remaining + code "0"))))
  ++ str1 (unit_at u).

(** [dirlist_format_size(buf, size)]: the string left in [buf], without its
    terminating NUL. *)
Definition dirlist_format_size (size : Z) : string :=
  finish (scale size 0 0).

(** Index of the unit letter the function ends on. *)
Definition unit_index (size : Z) : nat :=
  let '(size', _, u) := scale size 0 0 in
  if size' >? 999 then S u else u.

(** The shape [digits[.digit]unit]. *)
Definition is_digit (c : ascii) : bool :=
  ((code "0" <=? code c)%Z && (code c <=? code "9")%Z)%bool.

Definition is_unit (c : ascii) : bool :=
  existsb (Ascii.eqb c) (list_ascii_of_string unit).

Definition int_part_ok (ds : list ascii) : bool :=
  match ds with
  | [a] => is_digit a
  | [a; b] => is_digit a && negb (Ascii.eqb a "0") && is_digit b
  | [a; b; c] => is_digit a && negb (Ascii.eqb a "0") && is_digit b && is_digit c
  | _ => false
  end.

(** A fraction is there exactly when the unit is not the first one. *)
Definition tail_ok (t : list ascii) : bool :=
  match t with
  | [u] => Ascii.eqb u "B"
  | [dot; d; u] =>
      Ascii.eqb dot "." && is_digit d && is_unit u && negb (Ascii.eqb u "B")
  | _ => false
  end.

Definition size_pattern (s : string) : bool :=
  let l := list_ascii_of_string s in
  existsb (fun k => int_part_ok (firstn k l) && tail_ok (skipn k l)) [1; 2; 3]%nat.

(** [gchar sizebuf[sizeof("999.9K")+1]] in [dirlist]. *)
Definition sizeof_sizebuf : Z := Z.of_nat (String.length "999.9K" + 1) + 1.

End SizeFormat.

(** ** String encoding (lighttpd/encoding.h) *)

Module Encoding.

Inductive liEncoding := LI_ENCODING_HTML | LI_ENCODING_URI.

Definition hex_chars : string := "0123456789abcdef".

Definition hex_char (n : Z) : ascii :=
  match String.get (Z.to_nat n) hex_chars with
  | Some c => c
  | None => "0"%char
  end.

Definition in_range (lo hi c : ascii) : bool :=
  ((code lo <=? code c)%Z && (code c <=? code hi)%Z)%bool.

Definition is_alnum (c : ascii) : bool :=
  in_range "0" "9" c || in_range "A" "Z" c || in_range "a" "z" c.

Definition one_of (set : string) (c : ascii) : bool :=
  existsb (Ascii.eqb c) (list_ascii_of_string set).

(** Bytes that are written as an escape in a URI: all but letters, digits
    and [-._~]. *)
Definition encode_map_uri (c : ascii) : bool :=
  negb (is_alnum c || one_of "-._~" c).

(** Bytes that are written as an escape in HTML text: the two quotes, the
    ampersand and the angle brackets. *)
Definition encode_map_html (c : ascii) : bool :=
  one_of (lit "\q&'<>") c.

Definition encode_char (encoding : liEncoding) (c : ascii) : string :=
  let hi := hex_char (code c / 16) in
  let lo := hex_char (code c mod 16) in
  match encoding with
  | LI_ENCODING_URI =>
      if encode_map_uri c then String "%" (String hi (str1 lo)) else str1 c
  | LI_ENCODING_HTML =>
      if encode_map_html c
      then "&#x" ++ String hi (String lo ";")
      else str1 c
  end.

(** Modelled from the spec: [li_string_encode] and [li_string_encode_append]
    of the server's encoding.c, which is not part of the sources at hand.
    The spec names the two encodings (URI-escaping for link targets,
    HTML-escaping for text) and asks that the usual decoding gives the text
    back.  The model writes an escaped byte as a percent sign and two
    hexadecimal digits in a URI and as a hexadecimal character reference in
    HTML.  The argument is a C string ([const gchar*]): what follows a zero
    byte is not seen. *)
Fixpoint li_string_encode (str : string) (encoding : liEncoding) : string :=
  match str with
  | EmptyString => ""
  | String c str' =>
      if Ascii.eqb c NUL then ""
      else encode_char encoding c ++ li_string_encode str' encoding
  end.

Definition hex_value (c : ascii) : option Z :=
  if in_range "0" "9" c then Some (code c - code "0")
  else if in_range "a" "f" c then Some (code c - code "a" + 10)
  else if in_range "A" "F" c then Some (code c - code "A" + 10)
  else None.

Definition hex_pair (a b : ascii) : option ascii :=
  match hex_value a, hex_value b with
  | Some x, Some y => Some (gchar (16 * x + y))
  | _, _ => None
  end.

(** The byte a percent escape at the head of [String c t] stands for. *)
Definition percent_escape (c : ascii) (t : string) : option ascii :=
  match t with
  | String a (String b _) => if Ascii.eqb c "%" then hex_pair a b else None
  | _ => None
  end.

(** Modelled from the spec: URI-decoding, the inverse the spec's round trip
    refers to.  A percent sign followed by two hexadecimal digits is the
    byte they denote; every other byte stands for itself.  [skip] counts the
    bytes of an escape still to be passed over. *)
Fixpoint uri_decode_from (skip : nat) (s : string) : string :=
  match s with
  | EmptyString => ""
  | String c t =>
      match skip with
      | S k => uri_decode_from k t
      | O =>
          match percent_escape c t with
          | Some b => String b (uri_decode_from 2 t)
          | None => String c (uri_decode_from 0 t)
          end
      end
  end.

Definition uri_decode (s : string) : string := uri_decode_from 0 s.

(** The byte a character reference [&#xHH;] at the head of [String c t]
    stands for. *)
Definition char_reference (c : ascii) (t : string) : option ascii :=
  match t with
  | String h (String x (String a (String b (String e _)))) =>
      if (Ascii.eqb c "&" && Ascii.eqb h "#" && Ascii.eqb x "x" && Ascii.eqb e ";")%bool
      then hex_pair a b else None
  | _ => None
  end.

(** Modelled from the spec: HTML-decoding of text, the inverse the spec's
    round trip refers to. *)
Fixpoint html_decode_from (skip : nat) (s : string) : string :=
  match s with
  | EmptyString => ""
  | String c t =>
      match skip with
      | S k => html_decode_from k t
      | O =>
          match char_reference c t with
          | Some b => String b (html_decode_from 5 t)
          | None => String c (html_decode_from 0 t)
          end
      end
  end.

Definition html_decode (s : string) : string := html_decode_from 0 s.

(** A string without a zero byte: what a C string can hold. *)
Definition no_nul (s : string) : bool :=
  forallb (fun c => negb (Ascii.eqb c NUL)) (list_ascii_of_string s).

End Encoding.
Import SizeFormat Encoding.

(** ** Data *)

(** [MAX_INCLUDE_FILE_SIZE]: maximum filesize for HEADER.txt and README.txt
    to have them included. *)
Definition MAX_INCLUDE_FILE_SIZE : Z := 64 * 1024.

Definition len (s : string) : Z := Z.of_nat (String.length s).

(** Arithmetic in [gsize] wraps at 64 bits. *)
Definition gsize (z : Z) : Z := z mod 2 ^ 64.

(** [s->str[i]] for a [GString] [s]: its [len] bytes are followed by a
    terminating NUL; no other index lies in the string. *)
Definition g_string_index (s : string) (i : Z) : option ascii :=
  if ((0 <=? i)%Z && (i <? len s)%Z)%bool then String.get (Z.to_nat i) s
  else if (i =? len s)%Z then Some NUL
  else None.

(** [struct stat], the members the module reads. *)
Record stat := {
  st_mode : Z;
  st_size : Z;
  st_mtime : Z }.

Definition S_IFMT : Z := 61440.  (* 0170000 *)
Definition S_IFDIR : Z := 16384. (* 0040000 *)
Definition S_ISDIR (m : Z) : bool := (Z.land m S_IFMT =? S_IFDIR)%Z.

Definition ENOENT : Z := 2.
Definition EACCES : Z := 13.
Definition ENOTDIR : Z := 20.

Record liStatCacheEntryData := {
  sced_path : string;
  sced_failed : bool;
  sced_err : Z;
  sced_st : stat }.

Record liStatCacheEntry := {
  sce_data : liStatCacheEntryData;
  sce_dirlist : list liStatCacheEntryData }.

(** [struct dirlist_data]; a NULL [css] is [None]. *)
Record dirlist_data := {
  css : option string;
  hide_dotfiles : bool;
  hide_tildefiles : bool;
  include_header : bool;
  hide_header : bool;
  encode_header : bool;
  include_readme : bool;
  hide_readme : bool;
  encode_readme : bool;
  hide_directories : bool;
  debug : bool;
  exclude_suffix : list string;
  exclude_prefix : list string;
  content_type : string }.

Inductive liHandlerResult :=
  | LI_HANDLER_GO_ON
  | LI_HANDLER_COMEBACK
  | LI_HANDLER_WAIT_FOR_EVENT
  | LI_HANDLER_ERROR.

Inductive liHttpMethod :=
  | LI_HTTP_METHOD_GET
  | LI_HTTP_METHOD_HEAD
  | LI_HTTP_METHOD_POST
  | LI_HTTP_METHOD_OTHER.

(** What the chunk queue [vr->out] holds: strings, and ranges of open
    files that the transport sends by itself. *)
Inductive chunk :=
  | STRING_CHUNK (s : string)
  | FILE_CHUNK (file : string) (start length : Z).

(** The members of [liVRequest] the module reads and writes. *)
Record liVRequest := {
  http_method : liHttpMethod;
  handled : bool;
  physical_path : string;
  uri_path : string;
  http_status : Z;
  headers : list (string * string);
  out : list chunk }.

Definition set_handled (vr : liVRequest) : liVRequest :=
  {| http_method := http_method vr; handled := true;
     physical_path := physical_path vr; uri_path := uri_path vr;
     http_status := http_status vr; headers := headers vr; out := out vr |}.

Definition set_http_status (code : Z) (vr : liVRequest) : liVRequest :=
  {| http_method := http_method vr; handled := handled vr;
     physical_path := physical_path vr; uri_path := uri_path vr;
     http_status := code; headers := headers vr; out := out vr |}.

Definition set_headers (hs : list (string * string)) (vr : liVRequest) : liVRequest :=
  {| http_method := http_method vr; handled := handled vr;
     physical_path := physical_path vr; uri_path := uri_path vr;
     http_status := http_status vr; headers := hs; out := out vr |}.

Definition set_out (o : list chunk) (vr : liVRequest) : liVRequest :=
  {| http_method := http_method vr; handled := handled vr;
     physical_path := physical_path vr; uri_path := uri_path vr;
     http_status := http_status vr; headers := headers vr; out := o |}.

(** The result of [li_stat_cache_get_dirlist]: [LI_HANDLER_GO_ON] with the
    entry, [LI_HANDLER_WAIT_FOR_EVENT], or anything else. *)
Inductive stat_cache_lookup :=
  | LOOKUP_GO_ON (sce : liStatCacheEntry)
  | LOOKUP_WAIT_FOR_EVENT
  | LOOKUP_OTHER.

(** What the module takes from the server and the system around it.

    [g_str_equal_path sced s] is the value of [g_str_equal(sced->path, s)].
    [sced->path] is a [GString*] (the module reads its [str] and [len]
    elsewhere) and [g_str_equal] compares two C strings, so the comparison
    reads the bytes of the [GString] object, not the name; its outcome is
    left to the host.  [name_equal] below is the comparison of the name the
    module's documentation has in mind.

    [strftime_local t] is the text [localtime_r] and [strftime] with the
    format [%Y-%b-%d %H:%M:%S] give for the time [t].  [li_etag vr st] is
    the entity tag of [st] and whether the client's copy is up to date.
    [read_file f] is the content of the file named [f], if it can be
    opened. *)
Record host := {
  li_stat_cache_get_dirlist : string -> stat_cache_lookup;
  g_str_equal_path : liStatCacheEntryData -> string -> bool;
  li_mimetype_get : string -> option string;
  strftime_local : Z -> string;
  li_etag : liVRequest -> stat -> string * bool;
  read_file : string -> option string;
  server_tag : string }.

Definition name_equal (sced : liStatCacheEntryData) (s : string) : bool :=
  String.eqb (sced_path sced) s.

(** ** Helpers of the server the module calls *)

(** Modelled from the spec: [li_string_suffix] and [li_string_prefix] of the
    server's utilities, not part of the sources at hand: the name ends,
    respectively begins, with the given string, compared byte by byte. *)
Definition li_string_suffix (str s : string) : bool :=
  ((len s <=? len str)%Z &&
   String.eqb (substring (String.length str - String.length s) (String.length s) str) s)%bool.

Definition li_string_prefix (str s : string) : bool := String.prefix s str.

(** Modelled from the spec: [li_path_append_slash], not part of the sources
    at hand: a slash is added unless the path ends in one. *)
Definition li_path_append_slash (f : string) : string :=
  if li_string_suffix f "/" then f else f ++ "/".

(** Modelled from the spec: [li_string_append_int], not part of the sources
    at hand: the decimal digits of the number. *)
Definition li_string_append_int (dest : string) (v : Z) : string :=
  dest ++ NilZero.string_of_int (Z.to_int v).

(** Modelled from the spec: [li_http_header_overwrite], not part of the
    sources at hand: the header has the given value afterwards, once. *)
Definition li_http_header_overwrite (hs : list (string * string)) (key value : string)
  : list (string * string) :=
  filter (fun kv => negb (String.eqb (fst kv) key)) hs ++ [(key, value)].

(** Modelled from the spec: [li_vrequest_handle_direct], not part of the
    sources at hand: claims the response unless it is claimed already. *)
Definition li_vrequest_handle_direct (vr : liVRequest) : bool * liVRequest :=
  if handled vr then (false, vr) else (true, set_handled vr).

(** Modelled from the spec: [li_vrequest_redirect_directory], not part of the
    sources at hand: a redirect to the same path with a slash appended. *)
Definition li_vrequest_redirect_directory (vr : liVRequest) : liVRequest :=
  set_http_status 301
    (set_headers (li_http_header_overwrite (headers vr) "Location" (uri_path vr ++ "/"))
       (set_handled vr)).

(** Modelled from the spec: [li_etag_set_header], not part of the sources at
    hand: sets the validator header and tells whether the client's cached
    copy is fresh. *)
Definition li_etag_set_header (h : host) (vr : liVRequest) (st : stat)
  : liVRequest * bool :=
  let '(tag, cachable) := li_etag h vr st in
  (set_headers (li_http_header_overwrite (headers vr) "ETag" tag) vr, cachable).

(** ** HTML snippets *)

Definition html_header_start (title : string) : string :=
  lit "<?xml version=\q1.0\q encoding=\qiso-8859-1\q?>\n"
  ++ lit "<!DOCTYPE html PUBLIC \q-//W3C//DTD XHTML 1.0 Transitional//EN\q\n"
  ++ lit "         \qhttp://www.w3.org/TR/xhtml1/DTD/xhtml1-transitional.dtd\q>\n"
  ++ lit "<html xmlns=\qhttp://www.w3.org/1999/xhtml\q xml:lang=\qen\q lang=\qen\q>\n"
  ++ lit "\t<head>\n"
  ++ lit "\t\t<title>Index of " ++ title ++ lit "</title>\n".

Definition html_header_end : string :=
  lit "\t</head>\n"
  ++ lit "\t<body>\n".

Definition html_table_start (title : string) : string :=
  lit "\t\t<h2 id=\qtitle\q>Index of " ++ title ++ lit "</h2>\n"
  ++ lit "\t\t<div id=\qdirlist\q>\n"
  ++ lit "\t\t\t<table summary=\qDirectory Listing\q cellpadding=\q0\q cellspacing=\q0\q>\n"
  ++ lit "\t\t\t\t<thead><tr><th id=\qname\q>Name</th><th id=\qmodified\q>Last Modified</th><th id=\qsize\q>Size</th><th id=\qtype\q>Type</th></tr></thead>\n"
  ++ lit "\t\t\t\t<tbody>\n".

Definition html_table_row (href name : string) (mtime : Z) (date : string)
  (size : Z) (sizestr type : string) : string :=
  lit "\t\t\t\t<tr><td><a href=\q" ++ href ++ lit "\q>" ++ name ++ lit "</a></td>"
  ++ li_string_append_int (lit "<td class=\qmodified\q val=\q") mtime ++ lit "\q>" ++ date ++ lit "</td>"
  ++ li_string_append_int (lit "<td class=\qsize\q val=\q") size ++ lit "\q>" ++ sizestr ++ lit "</td>"
  ++ lit "<td class=\qtype\q>" ++ type ++ lit "</td></tr>\n".

Definition html_table_end : string :=
  lit "\t\t\t\t</tbody>\n"
  ++ lit "\t\t\t</table>\n"
  ++ lit "\t\t</div>\n".

Definition html_footer (tag : string) : string :=
  lit "\t<div id=\qfooter\q>" ++ tag ++ lit "</div>\n"
  ++ lit "\t</body>\n"
  ++ lit "</html>".

Definition html_css : string :=
  lit "<style type=\qtext/css\q>\n"
  ++ lit "\tbody { background-color: #F5F5F5; }\n"
  ++ lit "\th2#title { margin-bottom: 12px; }\n"
  ++ lit "\ta, a:active { text-decoration: none; color: blue; }\n"
  ++ lit "\ta:visited { color: #48468F; }\n"
  ++ lit "\ta:hover, a:focus { text-decoration: underline; color: red; }\n"
  ++ lit "\ttable { margin-left: 12px; }\n"
  ++ lit "\tth, td { font: 90% monospace; text-align: left; }\n"
  ++ lit "\tth { font-weight: bold; padding-right: 14px; padding-bottom: 3px; }\n"
  ++ lit "\ttd { padding-right: 14px; }\n"
  ++ lit "\ttd.size, th#size { text-align: right; }\n"
  ++ lit "\t#dirlist { background-color: white; border-top: 1px solid #646464; border-bottom: 1px solid #646464; padding-top: 10px; padding-bottom: 14px; }\n"
  ++ lit "\tdiv#footer { font: 90% monospace; color: #787878; padding-top: 4px; }\n"
  ++ lit "</style>\n".

(** ** try_append_file *)

(** [try_append_file(vr, &curbuf, filename, encode_html)], on the chunk
    queue [vr->out] and the buffer [*curbuf]; both are returned.  A file is
    known by its name; the size [fstat] reports for it is the length of its
    content. *)
Definition try_append_file (h : host) (vr_physical_path : string)
  (vr_out : list chunk) (curbuf : string) (filename : string) (encode_html : bool)
  : list chunk * string :=
  let f := li_path_append_slash vr_physical_path ++ filename in
  if negb encode_html then
    match read_file h f with
    | None => (vr_out, curbuf) (* failed to open, ignore *)
    | Some contents =>
        let st_size := len contents in
        if (st_size >? MAX_INCLUDE_FILE_SIZE)%Z then (vr_out, curbuf) (* file too big, ignore *)
        else
          (* flush current buffer and append file *)
          ((vr_out ++ [STRING_CHUNK curbuf] ++ [FILE_CHUNK f 0 st_size])%list, "")
    end
  else
    match read_file h f with
    | None => (vr_out, curbuf) (* ignore errors *)
    | Some contents =>
        let length := len contents in
        if (length >? MAX_INCLUDE_FILE_SIZE)%Z then (vr_out, curbuf) (* file too big, ignore *)
        else
          (vr_out,
           curbuf ++ "<pre>" ++ li_string_encode contents LI_ENCODING_HTML ++ "</pre>")
    end.

(** ** Separating directories from other files *)

(** The two index arrays and the two flags the loop over the entries
    fills. *)
Record classified := {
  directories : list nat;
  files : list nat;
  have_header : bool;
  have_readme : bool }.

Definition append_directory (i : nat) (a : classified) : classified :=
  {| directories := (directories a ++ [i])%list; files := files a;
     have_header := have_header a; have_readme := have_readme a |}.

Definition append_file (i : nat) (a : classified) : classified :=
  {| directories := directories a; files := (files a ++ [i])%list;
     have_header := have_header a; have_readme := have_readme a |}.

Definition set_have_header (a : classified) : classified :=
  {| directories := directories a; files := files a;
     have_header := true; have_readme := have_readme a |}.

Definition set_have_readme (a : classified) : classified :=
  {| directories := directories a; files := files a;
     have_header := have_header a; have_readme := true |}.

(** Reading a string outside its bytes has no defined result: such a run
    is [None].  [x <- e ;; k] goes on with the value of [e] if there is
    one. *)
Notation "x <- e ;; k" :=
  (match e with Some x => k | None => None end)
  (at level 61, e at next level, right associativity).

(** [b && e] of C: [e] is evaluated only when [b] holds. *)
Definition and_then (b : bool) (e : option bool) : option bool :=
  if b then e else Some false.

Definition char_is (c : ascii) (e : option ascii) : option bool :=
  x <- e ;; Some (Ascii.eqb x c).

(** The size test of the two include files. *)
Definition includable (st : stat) : bool :=
  ((st_size st >? 0)%Z && (st_size st <? MAX_INCLUDE_FILE_SIZE)%Z)%bool.

(** One turn of the loop over [sce->dirlist], for the entry [sced] at index
    [i].  Where the C code says [continue] the arrays are left as they
    are. *)
Definition classify_entry (h : host) (dd : dirlist_data) (i : nat)
  (sced : liStatCacheEntryData) (a : classified) : option classified :=
  let path := sced_path sced in
  (* ignore entries where the stat() failed *)
  if sced_failed sced then Some a else
  dot <- and_then (hide_dotfiles dd) (char_is "." (g_string_index path 0)) ;;
  if dot then Some a else
  tilde <- and_then (hide_tildefiles dd)
             (char_is "~" (g_string_index path (gsize (len path - 1)))) ;;
  if tilde then Some a else
  if existsb (li_string_suffix path) (exclude_suffix dd) then Some a else
  if existsb (li_string_prefix path) (exclude_prefix dd) then Some a else
  if S_ISDIR (st_mode (sced_st sced)) then
    if hide_directories dd then Some a
    else Some (append_directory i a)
  else
    if ((include_header dd || hide_header dd) && g_str_equal_path h sced "HEADER.txt")%bool then
      let a := if (include_header dd && includable (sced_st sced))%bool
               then set_have_header a else a in
      if hide_header dd then Some a else Some (append_file i a)
    else if ((include_readme dd || hide_readme dd) && g_str_equal_path h sced "README.txt")%bool then
      let a := if (include_readme dd && includable (sced_st sced))%bool
               then set_have_readme a else a in
      if hide_readme dd then Some a else Some (append_file i a)
    else Some (append_file i a).

(** The loop [for (i = 0; i < sce->dirlist->len; i++)], from index [i]
    on. *)
Fixpoint classify_from (h : host) (dd : dirlist_data) (i : nat)
  (entries : list liStatCacheEntryData) (a : classified) : option classified :=
  match entries with
  | [] => Some a
  | sced :: rest =>
      a' <- classify_entry h dd i sced a ;;
      classify_from h dd (S i) rest a'
  end.

Definition classify (h : host) (dd : dirlist_data)
  (entries : list liStatCacheEntryData) : option classified :=
  classify_from h dd 0 entries
    {| directories := []; files := []; have_header := false; have_readme := false |}.

(** ** Rows *)

(** The link target and the link text of a row, as the two calls of
    [li_string_encode] on [sced->path->str] leave them. *)
Definition directory_href (sced : liStatCacheEntryData) : string :=
  li_string_encode (sced_path sced) LI_ENCODING_URI ++ "/".

Definition file_href (sced : liStatCacheEntryData) : string :=
  li_string_encode (sced_path sced) LI_ENCODING_URI.

Definition link_text (sced : liStatCacheEntryData) : string :=
  li_string_encode (sced_path sced) LI_ENCODING_HTML.

(** What one turn of the loop "list directories" appends to [listing]. *)
Definition directory_row (h : host) (sced : liStatCacheEntryData) : string :=
  let datebuf := strftime_local h (st_mtime (sced_st sced)) in
  lit "\t\t\t\t<tr><td><a href=\q"
  ++ directory_href sced
  ++ lit "\q>"
  ++ link_text sced
  ++ li_string_append_int (lit "</a></td><td class=\qmodified\q val=\q") (st_mtime (sced_st sced))
  ++ lit "\q>"
  ++ datebuf
  ++ lit "</td>"
  ++ lit "<td class=\qsize\q val=\q0\q>-</td>"
  ++ lit "<td class=\qtype\q>Directory</td></tr>\n".

(** What one turn of the loop "list files" appends to [listing]. *)
Definition file_row (h : host) (sced : liStatCacheEntryData) : string :=
  let mime_str := li_mimetype_get h (sced_path sced) in
  let datebuf := strftime_local h (st_mtime (sced_st sced)) in
  let sizebuf := dirlist_format_size (st_size (sced_st sced)) in
  lit "\t\t\t\t<tr><td><a href=\q"
  ++ file_href sced
  ++ lit "\q>"
  ++ link_text sced
  ++ li_string_append_int (lit "</a></td>" ++ lit "<td class=\qmodified\q val=\q") (st_mtime (sced_st sced))
  ++ lit "\q>"
  ++ datebuf
  ++ li_string_append_int (lit "</td><td class=\qsize\q val=\q") (st_size (sced_st sced))
  ++ lit "\q>"
  ++ sizebuf
  ++ lit "</td><td class=\qtype\q>"
  ++ match mime_str with
     | Some m => m
     | None => "application/octet-stream"
     end
  ++ lit "</td></tr>\n".

(** A loop over an index array: [g_array_index(sce->dirlist, ..., idx)] for
    each index, an index outside the list being a read outside it. *)
Fixpoint rows (row : liStatCacheEntryData -> string)
  (entries : list liStatCacheEntryData) (indices : list nat) : option string :=
  match indices with
  | [] => Some ""
  | idx :: indices' =>
      sced <- nth_error entries idx ;;
      rest <- rows row entries indices' ;;
      Some (row sced ++ rest)
  end.

(** ** dirlist *)

(** The branch of [dirlist] that has the directory listing: from the
    allocation of [listing] to the final [li_chunkqueue_append_string].
    The path of the request is written whole, as [%s] writes a path without
    a zero byte. *)
Definition render (h : host) (dd : dirlist_data) (vr : liVRequest)
  (sce : liStatCacheEntry) (a : classified) : option liVRequest :=
  let listing := html_header_start (uri_path vr) in
  let listing :=
    listing ++
    match css dd with
    | Some url => (* custom css *)
        lit "\t\t<link rel=\qstylesheet\q type=\qtext/css\q href=\q" ++ url ++ lit "\q />\n"
    | None => (* default css *)
        html_css
    end in
  let listing := listing ++ html_header_end in
  let '(out1, listing) :=
    try_append_file h (physical_path vr) (out vr) listing "HEADER.txt" (encode_header dd) in
  let listing := listing ++ html_table_start (uri_path vr) in
  let listing :=
    listing ++ html_table_row "../" "Parent Directory" 0 "" 0 "-" "Directory" in
  (* list directories *)
  dirs <- (if negb (hide_directories dd)
           then rows (directory_row h) (sce_dirlist sce) (directories a)
           else Some "") ;;
  (* list files *)
  fls <- rows (file_row h) (sce_dirlist sce) (files a) ;;
  let listing := listing ++ dirs ++ fls ++ html_table_end in
  let '(out2, listing) :=
    try_append_file h (physical_path vr) out1 listing "README.txt" (encode_header dd) in
  let listing := listing ++ html_footer (server_tag h) in
  Some (set_out (out2 ++ [STRING_CHUNK listing])%list vr).

(** [vr->request.uri.path->str[len-1] != '/'], read after the test for an
    empty path. *)
Definition ends_in_slash (s : string) : bool :=
  match g_string_index s (len s - 1) with
  | Some c => Ascii.eqb c "/"
  | None => false
  end.

(** [dirlist(vr, param, context)] with [dd = param]: the handler result and
    the request as the call leaves it, or [None] for a run that reads
    outside a string. *)
Definition dirlist (h : host) (dd : dirlist_data) (vr : liVRequest)
  : option (liHandlerResult * liVRequest) :=
  match http_method vr with
  | LI_HTTP_METHOD_GET | LI_HTTP_METHOD_HEAD =>
    if handled vr then Some (LI_HANDLER_GO_ON, vr) else
    if (len (physical_path vr) =? 0)%Z then Some (LI_HANDLER_GO_ON, vr) else
    match li_stat_cache_get_dirlist h (physical_path vr) with
    | LOOKUP_WAIT_FOR_EVENT => Some (LI_HANDLER_WAIT_FOR_EVENT, vr)
    | LOOKUP_OTHER => Some (LI_HANDLER_ERROR, vr)
    | LOOKUP_GO_ON sce =>
      if sced_failed (sce_data sce) then
        (* stat failed *)
        let e := sced_err (sce_data sce) in
        if ((e =? ENOENT)%Z || (e =? ENOTDIR)%Z)%bool then Some (LI_HANDLER_GO_ON, vr)
        else if (e =? EACCES)%Z then
          match li_vrequest_handle_direct vr with
          | (false, vr) => Some (LI_HANDLER_ERROR, vr)
          | (true, vr) => Some (LI_HANDLER_GO_ON, set_http_status 403 vr)
          end
        else Some (LI_HANDLER_ERROR, vr)
      else if negb (S_ISDIR (st_mode (sced_st (sce_data sce)))) then
        Some (LI_HANDLER_GO_ON, vr)
      else if ((len (uri_path vr) =? 0)%Z || negb (ends_in_slash (uri_path vr)))%bool then
        Some (LI_HANDLER_GO_ON, li_vrequest_redirect_directory vr)
      else
        (* everything ok, we have the directory listing *)
        match li_vrequest_handle_direct vr with
        | (false, vr) => Some (LI_HANDLER_ERROR, vr)
        | (true, vr) =>
          let vr := set_http_status 200 vr in
          let vr :=
            set_headers
              (li_http_header_overwrite (headers vr) "Content-Type" (content_type dd)) vr in
          let '(vr, cachable) := li_etag_set_header h vr (sced_st (sce_data sce)) in
          if cachable then Some (LI_HANDLER_GO_ON, set_http_status 304 vr)
          else
            (* seperate directories from other files *)
            a <- classify h dd (sce_dirlist sce) ;;
            vr <- render h dd vr sce a ;;
            Some (LI_HANDLER_GO_ON, vr)
        end
    end
  | _ => Some (LI_HANDLER_GO_ON, vr)
  end.

(** ** dirlist_create *)

Inductive liValueType :=
  | LI_VALUE_NONE
  | LI_VALUE_BOOLEAN
  | LI_VALUE_NUMBER
  | LI_VALUE_STRING
  | LI_VALUE_LIST.

(** Modelled from the spec: [liValue] of the server's value.h, not part of
    the sources at hand: a value with a type tag, the lists of key and
    value pairs an action is configured with being lists of two-element
    lists. *)
#[warnings="-register-all"] Inductive liValue :=
  | value_none
  | value_boolean (b : bool)
  | value_number (n : Z)
  | value_string (s : string)
  | value_list (l : list liValue).

(** [v->type]. *)
Definition type (v : liValue) : liValueType :=
  match v with
  | value_none => LI_VALUE_NONE
  | value_boolean _ => LI_VALUE_BOOLEAN
  | value_number _ => LI_VALUE_NUMBER
  | value_string _ => LI_VALUE_STRING
  | value_list _ => LI_VALUE_LIST
  end.

Definition type_eqb (a b : liValueType) : bool :=
  match a, b with
  | LI_VALUE_NONE, LI_VALUE_NONE
  | LI_VALUE_BOOLEAN, LI_VALUE_BOOLEAN
  | LI_VALUE_NUMBER, LI_VALUE_NUMBER
  | LI_VALUE_STRING, LI_VALUE_STRING
  | LI_VALUE_LIST, LI_VALUE_LIST => true
  | _, _ => false
  end.

(** [v->data.boolean] and [v->data.list], which the code reads after it has
    tested the type. *)
Definition data_boolean (v : liValue) : bool :=
  match v with value_boolean b => b | _ => false end.

Definition data_list (v : liValue) : list liValue :=
  match v with value_list l => l | _ => [] end.

(** [v->data.string].  Read from a value that is no string, the member
    holds what the value's own member left there: a null pointer for
    [false], which [GSTR_LEN] reads as the empty string, a stray pointer for
    [true], whose dereference ends the run.  [wild] stands for the string
    the code sees where it sees one; of a run that ends in such a
    dereference the model tells nothing, and the statements on [dirlist_create]
    are made at inputs where the read has a result. *)
Definition data_string (wild : liValue -> string) (v : liValue) : string :=
  match v with value_string s => s | _ => wild v end.

Definition set_css (x : option string) (data : dirlist_data) : dirlist_data :=
  {| css := x; hide_dotfiles := hide_dotfiles data;
     hide_tildefiles := hide_tildefiles data;
     include_header := include_header data; hide_header := hide_header data;
     encode_header := encode_header data;
     include_readme := include_readme data; hide_readme := hide_readme data;
     encode_readme := encode_readme data;
     hide_directories := hide_directories data; debug := debug data;
     exclude_suffix := exclude_suffix data;
     exclude_prefix := exclude_prefix data;
     content_type := content_type data |}.

Definition set_hide_dotfiles (x : bool) (data : dirlist_data) : dirlist_data :=
  {| css := css data; hide_dotfiles := x;
     hide_tildefiles := hide_tildefiles data;
     include_header := include_header data; hide_header := hide_header data;
     encode_header := encode_header data;
     include_readme := include_readme data; hide_readme := hide_readme data;
     encode_readme := encode_readme data;
     hide_directories := hide_directories data; debug := debug data;
     exclude_suffix := exclude_suffix data;
     exclude_prefix := exclude_prefix data;
     content_type := content_type data |}.

Definition set_hide_tildefiles (x : bool) (data : dirlist_data) : dirlist_data :=
  {| css := css data; hide_dotfiles := hide_dotfiles data;
     hide_tildefiles := x; include_header := include_header data;
     hide_header := hide_header data; encode_header := encode_header data;
     include_readme := include_readme data; hide_readme := hide_readme data;
     encode_readme := encode_readme data;
     hide_directories := hide_directories data; debug := debug data;
     exclude_suffix := exclude_suffix data;
     exclude_prefix := exclude_prefix data;
     content_type := content_type data |}.

Definition set_include_header (x : bool) (data : dirlist_data) : dirlist_data :=
  {| css := css data; hide_dotfiles := hide_dotfiles data;
     hide_tildefiles := hide_tildefiles data; include_header := x;
     hide_header := hide_header data; encode_header := encode_header data;
     include_readme := include_readme data; hide_readme := hide_readme data;
     encode_readme := encode_readme data;
     hide_directories := hide_directories data; debug := debug data;
     exclude_suffix := exclude_suffix data;
     exclude_prefix := exclude_prefix data;
     content_type := content_type data |}.

Definition set_hide_header (x : bool) (data : dirlist_data) : dirlist_data :=
  {| css := css data; hide_dotfiles := hide_dotfiles data;
     hide_tildefiles := hide_tildefiles data;
     include_header := include_header data; hide_header := x;
     encode_header := encode_header data;
     include_readme := include_readme data; hide_readme := hide_readme data;
     encode_readme := encode_readme data;
     hide_directories := hide_directories data; debug := debug data;
     exclude_suffix := exclude_suffix data;
     exclude_prefix := exclude_prefix data;
     content_type := content_type data |}.

Definition set_encode_header (x : bool) (data : dirlist_data) : dirlist_data :=
  {| css := css data; hide_dotfiles := hide_dotfiles data;
     hide_tildefiles := hide_tildefiles data;
     include_header := include_header data; hide_header := hide_header data;
     encode_header := x; include_readme := include_readme data;
     hide_readme := hide_readme data; encode_readme := encode_readme data;
     hide_directories := hide_directories data; debug := debug data;
     exclude_suffix := exclude_suffix data;
     exclude_prefix := exclude_prefix data;
     content_type := content_type data |}.

Definition set_include_readme (x : bool) (data : dirlist_data) : dirlist_data :=
  {| css := css data; hide_dotfiles := hide_dotfiles data;
     hide_tildefiles := hide_tildefiles data;
     include_header := include_header data; hide_header := hide_header data;
     encode_header := encode_header data; include_readme := x;
     hide_readme := hide_readme data; encode_readme := encode_readme data;
     hide_directories := hide_directories data; debug := debug data;
     exclude_suffix := exclude_suffix data;
     exclude_prefix := exclude_prefix data;
     content_type := content_type data |}.

Definition set_hide_readme (x : bool) (data : dirlist_data) : dirlist_data :=
  {| css := css data; hide_dotfiles := hide_dotfiles data;
     hide_tildefiles := hide_tildefiles data;
     include_header := include_header data; hide_header := hide_header data;
     encode_header := encode_header data;
     include_readme := include_readme data; hide_readme := x;
     encode_readme := encode_readme data;
     hide_directories := hide_directories data; debug := debug data;
     exclude_suffix := exclude_suffix data;
     exclude_prefix := exclude_prefix data;
     content_type := content_type data |}.

Definition set_encode_readme (x : bool) (data : dirlist_data) : dirlist_data :=
  {| css := css data; hide_dotfiles := hide_dotfiles data;
     hide_tildefiles := hide_tildefiles data;
     include_header := include_header data; hide_header := hide_header data;
     encode_header := encode_header data;
     include_readme := include_readme data; hide_readme := hide_readme data;
     encode_readme := x; hide_directories := hide_directories data;
     debug := debug data; exclude_suffix := exclude_suffix data;
     exclude_prefix := exclude_prefix data;
     content_type := content_type data |}.

Definition set_hide_directories (x : bool) (data : dirlist_data) : dirlist_data :=
  {| css := css data; hide_dotfiles := hide_dotfiles data;
     hide_tildefiles := hide_tildefiles data;
     include_header := include_header data; hide_header := hide_header data;
     encode_header := encode_header data;
     include_readme := include_readme data; hide_readme := hide_readme data;
     encode_readme := encode_readme data; hide_directories := x;
     debug := debug data; exclude_suffix := exclude_suffix data;
     exclude_prefix := exclude_prefix data;
     content_type := content_type data |}.

Definition set_debug (x : bool) (data : dirlist_data) : dirlist_data :=
  {| css := css data; hide_dotfiles := hide_dotfiles data;
     hide_tildefiles := hide_tildefiles data;
     include_header := include_header data; hide_header := hide_header data;
     encode_header := encode_header data;
     include_readme := include_readme data; hide_readme := hide_readme data;
     encode_readme := encode_readme data;
     hide_directories := hide_directories data; debug := x;
     exclude_suffix := exclude_suffix data;
     exclude_prefix := exclude_prefix data;
     content_type := content_type data |}.

Definition set_exclude_suffix (x : list string) (data : dirlist_data) : dirlist_data :=
  {| css := css data; hide_dotfiles := hide_dotfiles data;
     hide_tildefiles := hide_tildefiles data;
     include_header := include_header data; hide_header := hide_header data;
     encode_header := encode_header data;
     include_readme := include_readme data; hide_readme := hide_readme data;
     encode_readme := encode_readme data;
     hide_directories := hide_directories data; debug := debug data;
     exclude_suffix := x; exclude_prefix := exclude_prefix data;
     content_type := content_type data |}.

Definition set_exclude_prefix (x : list string) (data : dirlist_data) : dirlist_data :=
  {| css := css data; hide_dotfiles := hide_dotfiles data;
     hide_tildefiles := hide_tildefiles data;
     include_header := include_header data; hide_header := hide_header data;
     encode_header := encode_header data;
     include_readme := include_readme data; hide_readme := hide_readme data;
     encode_readme := encode_readme data;
     hide_directories := hide_directories data; debug := debug data;
     exclude_suffix := exclude_suffix data; exclude_prefix := x;
     content_type := content_type data |}.

Definition set_content_type (x : string) (data : dirlist_data) : dirlist_data :=
  {| css := css data; hide_dotfiles := hide_dotfiles data;
     hide_tildefiles := hide_tildefiles data;
     include_header := include_header data; hide_header := hide_header data;
     encode_header := encode_header data;
     include_readme := include_readme data; hide_readme := hide_readme data;
     encode_readme := encode_readme data;
     hide_directories := hide_directories data; debug := debug data;
     exclude_suffix := exclude_suffix data;
     exclude_prefix := exclude_prefix data; content_type := x |}.

(** The defaults [dirlist_create] starts from. *)
Definition default_data : dirlist_data :=
  {| css := None;
     hide_dotfiles := true;
     hide_tildefiles := true;
     include_header := false; hide_header := false; encode_header := true;
     include_readme := true; hide_readme := false; encode_readme := true;
     hide_directories := false;
     debug := false;
     exclude_suffix := [];
     exclude_prefix := [];
     content_type := "text/html; charset=utf-8" |}.

(** A configuration that is refused: [ERROR(srv, ...)] with the message,
    [dirlist_free] and [return NULL].  The other outcome is the action made
    by [li_action_new_function(dirlist, NULL, dirlist_free, data)], known by
    its [data]. *)
Definition refused {A} (message : string) : string + A := inl message.

(** The loop over the elements [j] of the list [v] for exclude-suffix and
    exclude-prefix, adding to the array [arr].  The type the loop tests is
    that of [v]. *)
Fixpoint add_strings (wild : liValue -> string) (message : string) (v : liValue)
  (elements : list liValue) (arr : list string) : string + list string :=
  match elements with
  | [] => inr arr
  | element :: rest =>
      if negb (type_eqb (type v) LI_VALUE_LIST) then refused message
      else add_strings wild message v rest (arr ++ [data_string wild element])%list
  end.

Definition expect_boolean (name : string) (v : liValue)
  (set : bool -> dirlist_data -> dirlist_data) (data : dirlist_data)
  : string + dirlist_data :=
  if negb (type_eqb (type v) LI_VALUE_BOOLEAN)
  then refused ("dirlist: " ++ name ++ " parameter must be a boolean (true or false)")
  else inr (set (data_boolean v) data).

(** One turn of the loop over [val->data.list], for the element [tmpval].
    The warning that [sort] is not supported yet is not kept.  The code
    compares [k->str], and copies the content type, as C strings; the model
    takes the whole strings, which is the same for strings without a zero
    byte. *)
Definition dirlist_create_option (wild : liValue -> string) (tmpval : liValue)
  (data : dirlist_data) : string + dirlist_data :=
  match tmpval with
  | value_list [value_string k; v] =>
      if String.eqb k "sort" then
        if negb (type_eqb (type v) LI_VALUE_STRING)
        then refused "dirlist: sort parameter must be a string"
        else inr data
      else if String.eqb k "css" then
        if negb (type_eqb (type v) LI_VALUE_STRING)
        then refused "dirlist: css parameter must be a string"
        else inr (set_css (Some (data_string wild v)) data)
      else if String.eqb k "hide-dotfiles" then expect_boolean k v set_hide_dotfiles data
      else if String.eqb k "hide-tildefiles" then expect_boolean k v set_hide_tildefiles data
      else if String.eqb k "hide-directories" then expect_boolean k v set_hide_directories data
      else if String.eqb k "include-header" then expect_boolean k v set_include_header data
      else if String.eqb k "hide-header" then expect_boolean k v set_hide_header data
      else if String.eqb k "encode-header" then expect_boolean k v set_encode_header data
      else if String.eqb k "include-readme" then expect_boolean k v set_include_readme data
      else if String.eqb k "hide-readme" then expect_boolean k v set_hide_readme data
      else if String.eqb k "encode-readme" then expect_boolean k v set_encode_readme data
      else if String.eqb k "exclude-suffix" then
        let message := "dirlist: exclude-suffix parameter must be a list of strings" in
        if negb (type_eqb (type v) LI_VALUE_LIST) then refused message
        else
          match add_strings wild message v (data_list v) (exclude_suffix data) with
          | inl m => inl m
          | inr arr => inr (set_exclude_suffix arr data)
          end
      else if String.eqb k "exclude-prefix" then
        let message := "dirlist: exclude-prefix parameter must be a list of strings" in
        if negb (type_eqb (type v) LI_VALUE_LIST) then refused message
        else
          match add_strings wild message v (data_list v) (exclude_prefix data) with
          | inl m => inl m
          | inr arr => inr (set_exclude_prefix arr data)
          end
      else if String.eqb k "debug" then expect_boolean k v set_debug data
      else if String.eqb k "content-type" then
        if negb (type_eqb (type v) LI_VALUE_STRING)
        then refused "dirlist: content-type parameter must be a string"
        else inr (set_content_type (data_string wild v) data)
      else refused (lit "dirlist: unknown parameter \q" ++ k ++ lit "\q")
  | _ => refused "dirlist expects an optional list of string-value pairs"
  end.

Fixpoint dirlist_create_options (wild : liValue -> string) (options : list liValue)
  (data : dirlist_data) : string + dirlist_data :=
  match options with
  | [] => inr data
  | tmpval :: rest =>
      match dirlist_create_option wild tmpval data with
      | inl m => inl m
      | inr data' => dirlist_create_options wild rest data'
      end
  end.

(** [dirlist_create(srv, p, val)]; a NULL [val] is [None]. *)
Definition dirlist_create (wild : liValue -> string) (val : option liValue)
  : string + dirlist_data :=
  match val with
  | Some v =>
      if negb (type_eqb (type v) LI_VALUE_LIST)
      then refused "dirlist expects an optional list of string-value pairs"
      else dirlist_create_options wild (data_list v) default_data
  | None => inr default_data
  end.

(** A configuration is rejected when no action comes of it. *)
Definition rejected (r : string + dirlist_data) : bool :=
  match r with inl _ => true | inr _ => false end.

(** ** Definitions the statements use *)

(** [S_ISDIR(sced->st.st_mode)]. *)
Definition is_directory (sced : liStatCacheEntryData) : bool :=
  S_ISDIR (st_mode (sced_st sced)).

(** The request as [dirlist] hands it to [li_etag_set_header]: claimed, with
    status 200 and the content type of the configuration. *)
Definition claimed_200 (dd : dirlist_data) (vr : liVRequest) : liVRequest :=
  let vr := set_http_status 200 (set_handled vr) in
  set_headers
    (li_http_header_overwrite (headers vr) "Content-Type" (content_type dd)) vr.

(** A host that differs in the entries the stat cache lists and in the
    files that can be read. *)
Definition relist (entries : list liStatCacheEntryData) (l : stat_cache_lookup)
  : stat_cache_lookup :=
  match l with
  | LOOKUP_GO_ON sce => LOOKUP_GO_ON {| sce_data := sce_data sce; sce_dirlist := entries |}
  | other => other
  end.

Definition with_entries_and_files (entries : list liStatCacheEntryData)
  (read : string -> option string) (h : host) : host :=
  {| li_stat_cache_get_dirlist := fun p => relist entries (li_stat_cache_get_dirlist h p);
     g_str_equal_path := g_str_equal_path h;
     li_mimetype_get := li_mimetype_get h;
     strftime_local := strftime_local h;
     li_etag := li_etag h;
     read_file := read;
     server_tag := server_tag h |}.

(** The chunks a run of [dirlist] leaves in [vr->out]. *)
Definition output (r : option (liHandlerResult * liVRequest)) : list chunk :=
  match r with
  | Some (_, vr) => out vr
  | None => []
  end.

(** The strings among the chunks contain [s]. *)
Definition output_contains (s : string) (o : list chunk) : bool :=
  existsb (fun c => match c with
                   | STRING_CHUNK t => contains s t
                   | FILE_CHUNK _ _ _ => false
                   end) o.

Definition output_has_file (o : list chunk) : bool :=
  existsb (fun c => match c with
                   | STRING_CHUNK _ => false
                   | FILE_CHUNK _ _ _ => true
                   end) o.

(** ** Closed forms and predicates for further statements *)

(** The decimal digits of a number, as [li_string_append_int] writes
    them. *)
Definition decimal (n : Z) : string := NilZero.string_of_int (Z.to_int n).

(** The last byte of a name. *)
Fixpoint last_char (s : string) : option ascii :=
  match s with
  | EmptyString => None
  | String c EmptyString => Some c
  | String _ t => last_char t
  end.

(** [str[0] == '.'] and [str[len-1] == '~'] for a name that is not empty. *)
Definition begins_with_dot (name : string) : bool :=
  match name with
  | String c _ => Ascii.eqb c "."
  | EmptyString => false
  end.

Definition ends_with_tilde (name : string) : bool :=
  match last_char name with
  | Some c => Ascii.eqb c "~"
  | None => false
  end.

(** The four rules that hide an entry by its name. *)
Definition hidden_by_name (dd : dirlist_data) (name : string) : bool :=
  (hide_dotfiles dd && begins_with_dot name)
  || (hide_tildefiles dd && ends_with_tilde name)
  || existsb (li_string_suffix name) (exclude_suffix dd)
  || existsb (li_string_prefix name) (exclude_prefix dd).

(** An entry that reaches the test of its mode. *)
Definition shown (dd : dirlist_data) (e : liStatCacheEntryData) : bool :=
  negb (sced_failed e) && negb (hidden_by_name dd (sced_path e)).

(** The entries the loop appends to [directories]. *)
Definition listed_as_directory (dd : dirlist_data) (e : liStatCacheEntryData) : bool :=
  shown dd e && is_directory e && negb (hide_directories dd).

(** The two branches for the include files; the second is tried only when
    the first is not taken. *)
Definition treated_as_header (h : host) (dd : dirlist_data) (e : liStatCacheEntryData)
  : bool :=
  (include_header dd || hide_header dd) && g_str_equal_path h e "HEADER.txt".

Definition treated_as_readme (h : host) (dd : dirlist_data) (e : liStatCacheEntryData)
  : bool :=
  negb (treated_as_header h dd e)
  && ((include_readme dd || hide_readme dd) && g_str_equal_path h e "README.txt").

(** The entries the loop appends to [files]. *)
Definition listed_as_file (h : host) (dd : dirlist_data) (e : liStatCacheEntryData)
  : bool :=
  shown dd e && negb (is_directory e)
  && negb (treated_as_header h dd e && hide_header dd)
  && negb (treated_as_readme h dd e && hide_readme dd).

(** The entries that set [have_header] and [have_readme]. *)
Definition sets_have_header (h : host) (dd : dirlist_data) (e : liStatCacheEntryData)
  : bool :=
  shown dd e && negb (is_directory e) && treated_as_header h dd e
  && include_header dd && includable (sced_st e).

Definition sets_have_readme (h : host) (dd : dirlist_data) (e : liStatCacheEntryData)
  : bool :=
  shown dd e && negb (is_directory e) && treated_as_readme h dd e
  && include_readme dd && includable (sced_st e).

(** The indices, counted from [i], of the entries that satisfy [p]. *)
Fixpoint indices_from (i : nat) (p : liStatCacheEntryData -> bool)
  (entries : list liStatCacheEntryData) : list nat :=
  match entries with
  | [] => []
  | e :: rest =>
      if p e then i :: indices_from (S i) p rest else indices_from (S i) p rest
  end.

(** A name a [GString] can hold and a directory can list: not empty, its
    length a [gsize]. *)
Definition name_ok (e : liStatCacheEntryData) : Prop :=
  0 < len (sced_path e) < 2 ^ 64.

(** The keys of the options with a boolean value, each with the member it
    sets. *)
Definition boolean_options : list (string * (dirlist_data -> bool)) :=
  [("hide-dotfiles", hide_dotfiles);
   ("hide-tildefiles", hide_tildefiles);
   ("hide-directories", hide_directories);
   ("include-header", include_header);
   ("hide-header", hide_header);
   ("encode-header", encode_header);
   ("include-readme", include_readme);
   ("hide-readme", hide_readme);
   ("encode-readme", encode_readme);
   ("debug", debug)].

(** The keys whose value is a string, and those whose value is a list. *)
Definition string_keys : list string := ["sort"; "css"; "content-type"].
Definition list_keys : list string := ["exclude-suffix"; "exclude-prefix"].

Definition key_in (keys : list string) (k : string) : bool :=
  existsb (String.eqb k) keys.

(** An option the loop of [dirlist_create] takes: a pair of a known key and
    a value of the type that goes with the key. *)
Definition option_ok (o : liValue) : bool :=
  match o with
  | value_list [value_string k; v] =>
      if key_in string_keys k then type_eqb (type v) LI_VALUE_STRING
      else if key_in (map fst boolean_options) k then type_eqb (type v) LI_VALUE_BOOLEAN
      else if key_in list_keys k then type_eqb (type v) LI_VALUE_LIST
      else false
  | _ => false
  end.

Definition is_string (v : liValue) : bool :=
  match v with value_string _ => true | _ => false end.

(** An option whose key is a C string and whose list, when its value is
    one, holds strings only: what [g_str_equal(k->str, ...)] and the reads of
    [->data.string] are defined on. *)
Definition plain_option (o : liValue) : bool :=
  match o with
  | value_list [value_string k; v] => no_nul k && forallb is_string (data_list v)
  | _ => true
  end.

(** The value the last option with the key [key] gives, [default] when
    there is none. *)
Definition last_boolean (key : string) (options : list liValue) (default : bool) : bool :=
  fold_left
    (fun acc o =>
       match o with
       | value_list [value_string k; value_boolean b] =>
           if String.eqb k key then b else acc
       | _ => acc
       end) options default.

Definition last_string (key : string) (options : list liValue)
  (default : option string) : option string :=
  fold_left
    (fun acc o =>
       match o with
       | value_list [value_string k; value_string s] =>
           if String.eqb k key then Some s else acc
       | _ => acc
       end) options default.

(** The elements of all the lists given for the key [key], in their
    order. *)
Definition all_elements (key : string) (options : list liValue) : list liValue :=
  flat_map
    (fun o =>
       match o with
       | value_list [value_string k; value_list l] =>
           if String.eqb k key then l else []
       | _ => []
       end) options.

(** The text of the string chunks of a queue, in their order. *)
Fixpoint text_of (o : list chunk) : string :=
  match o with
  | [] => ""
  | STRING_CHUNK s :: o' => s ++ text_of o'
  | FILE_CHUNK _ _ _ :: o' => text_of o'
  end.

(** A file chunk that starts at the head of its file and is no longer than
    an include file may be. *)
Definition small_file (c : chunk) : Prop :=
  match c with
  | STRING_CHUNK _ => True
  | FILE_CHUNK _ start length => start = 0 /\ 0 <= length <= MAX_INCLUDE_FILE_SIZE
  end.

(** The row of the parent directory. *)
Definition parent_row : string :=
  html_table_row "../" "Parent Directory" 0 "" 0 "-" "Directory".

(** The part of the document between the two include files. *)
Definition table_text (vr : liVRequest) (dirs fls : string) : string :=
  html_table_start (uri_path vr) ++ parent_row ++ dirs ++ fls ++ html_table_end.

(** ** Sample directory *)

Module Sample.

Definition regular : Z := 33188.   (* 0100644 *)
Definition directory : Z := 16877. (* 0040755 *)

Definition entry (name : string) (mode size : Z) : liStatCacheEntryData :=
  {| sced_path := name; sced_failed := false; sced_err := 0;
     sced_st := {| st_mode := mode; st_size := size; st_mtime := 1104618204 |} |}.

Definition failed_entry (name : string) : liStatCacheEntryData :=
  {| sced_path := name; sced_failed := true; sced_err := EACCES;
     sced_st := {| st_mode := 0; st_size := 0; st_mtime := 0 |} |}.

Definition lookup (files : list (string * string)) (f : string) : option string :=
  match find (fun kv => String.eqb (fst kv) f) files with
  | Some kv => Some (snd kv)
  | None => None
  end.

(** A server whose stat cache lists [entries] for every directory, where
    the files [files] can be read, and whose client has a fresh copy or
    not. *)
Definition server (entries : list liStatCacheEntryData)
  (files : list (string * string)) (fresh : bool) : host :=
  {| li_stat_cache_get_dirlist := fun _ =>
       LOOKUP_GO_ON {| sce_data := entry "/srv/www" directory 4096;
                       sce_dirlist := entries |};
     g_str_equal_path := name_equal;
     li_mimetype_get := fun _ => None;
     strftime_local := fun _ => "2005-Jan-01 22:23:24";
     li_etag := fun _ _ => ("1a2b3c", fresh);
     read_file := lookup files;
     server_tag := "lighttpd/2.0.0" |}.

Definition request : liVRequest :=
  {| http_method := LI_HTTP_METHOD_GET; handled := false;
     physical_path := "/srv/www"; uri_path := "/files/";
     http_status := 0; headers := []; out := [] |}.

(** A key and its value in the list an action is configured with. *)
Definition key_value (k : string) (v : liValue) : liValue :=
  value_list [value_string k; v].

(** A directory with a HEADER.txt of five bytes. *)
Definition header_dir : list liStatCacheEntryData :=
  [entry "a.txt" regular 5; entry "HEADER.txt" regular 5].

Definition header_server : host :=
  server header_dir [("/srv/www/HEADER.txt", "hello")] false.

(** A directory with a README.txt of three bytes. *)
Definition readme_dir : list liStatCacheEntryData :=
  [entry "README.txt" regular 3].

Definition readme_server : host :=
  server readme_dir [("/srv/www/README.txt", "<b>")] false.

(** A directory with a subdirectory, an entry whose stat failed, a
    subdirectory named HEADER.txt and a file. *)
Definition mixed_dir : list liStatCacheEntryData :=
  [entry "sub" directory 4096; failed_entry "gone";
   entry "HEADER.txt" directory 4096; entry "a.txt" regular 5].

(** A listing with an entry that has no name. *)
Definition nameless_dir : list liStatCacheEntryData :=
  [entry "a.txt" regular 5; entry "" regular 0].

(** The entry the stat cache of [server] returns for the directory. *)
Definition www (entries : list liStatCacheEntryData) : liStatCacheEntry :=
  {| sce_data := entry "/srv/www" directory 4096; sce_dirlist := entries |}.

(** A server whose client has a fresh copy of the listing, and the request
    as [li_etag_set_header] leaves it there. *)
Definition fresh_server : host := server nameless_dir [] true.

Definition request_with_etag : liVRequest :=
  fst (li_etag_set_header fresh_server (claimed_200 default_data request)
         (sced_st (sce_data (www nameless_dir)))).

(** Every header and readme option set. *)
Definition all_header_options : dirlist_data :=
  set_include_header true (set_hide_header true (set_hide_readme true default_data)).

End Sample.
Import Sample.

(** ** Further samples *)

(** A listing with a hidden directory, a backup file, an excluded file and
    an entry whose stat failed, and a configuration that excludes [.bak]. *)
Definition listing_dir : list liStatCacheEntryData :=
  [entry "sub" directory 4096; entry ".git" directory 4096;
   entry "a.txt" regular 5; entry "notes~" regular 9;
   entry "old.bak" regular 7; failed_entry "gone"; entry "b&w.png" regular 2048].

Definition listing_data : dirlist_data := set_exclude_suffix [".bak"] default_data.

Definition listing_server : host := server listing_dir [] false.

Definition listing_classified : classified :=
  {| directories := [0%nat]; files := [2; 6]%nat;
     have_header := false; have_readme := false |}.

(** The request as [li_etag_set_header] leaves it for [listing_server]. *)
Definition listing_request : liVRequest :=
  fst (li_etag_set_header listing_server (claimed_200 listing_data request)
         (sced_st (sce_data (www listing_dir)))).

(** The request after rendering, and after the whole call. *)
Definition listing_rendered : liVRequest :=
  match render listing_server listing_data listing_request (www listing_dir)
          listing_classified with
  | Some vr => vr
  | None => request
  end.

(** Options as an action may be given them, some keys more than once. *)
Definition sample_options : list liValue :=
  [key_value "hide-dotfiles" (value_boolean false);
   key_value "sort" (value_string "name");
   key_value "exclude-suffix" (value_list [value_string ".bak"]);
   key_value "css" (value_string "/style.css");
   key_value "hide-dotfiles" (value_boolean true);
   key_value "include-header" (value_boolean true);
   key_value "exclude-suffix" (value_list [value_string ".tmp"; value_string ".old"])].

Definition sample_data : dirlist_data :=
  set_css (Some "/style.css")
    (set_include_header true
       (set_exclude_suffix [".bak"; ".tmp"; ".old"] default_data)).

Definition no_pun : liValue -> string := fun _ => "".

(** * Properties *)

(** ** The size formatter *)

Ltac divlia := Z.to_euclidean_division_equations; lia.

Lemma scale_shape (size remaining : Z) (u : nat) :
  0 <= size -> 0 <= remaining <= 1023 ->
  exists (k : nat) (r : Z),
    scale size remaining u = (size / 2 ^ (10 * Z.of_nat k), r, (u + k)%nat) /\
    0 <= r <= 1023 /\
    0 <= size / 2 ^ (10 * Z.of_nat k) <= 1024 /\
    (k = 0%nat \/ 2 ^ (10 * Z.of_nat k) < size).
Proof.
  funelim (scale size remaining u); intros Hsize Hrem.
  - assert (Hs0 : 0 <= Z.shiftr size 10) by (apply Z.shiftr_nonneg; lia).
    assert (Hr0 : 0 <= Z.land size 1023 <= 1023).
    { change 1023 with (Z.ones 10). rewrite Z.land_ones by lia.
      pose proof (Z.mod_pos_bound size (2 ^ 10)). change (Z.ones 10) with 1023. lia. }
    destruct (H Hs0 Hr0) as (k & r & Hk & Hr & Hs & Hlt).
    exists (S k), r.
    assert (Hdiv : Z.shiftr size 10 / 2 ^ (10 * Z.of_nat k)
                   = size / 2 ^ (10 * Z.of_nat (S k))).
    { rewrite Z.shiftr_div_pow2 by lia.
      rewrite Z.div_div by lia.
      rewrite <- Z.pow_add_r by lia.
      f_equal. f_equal. lia. }
    rewrite Hdiv in *.
    rewrite Hk. split; [f_equal; lia|].
    split; [assumption|]. split; [assumption|].
    right.
    replace (10 * Z.of_nat (S k)) with (10 + 10 * Z.of_nat k) by lia.
    rewrite Z.pow_add_r by lia.
    rewrite Z.shiftr_div_pow2 in Hlt by lia.
    destruct Hlt as [-> | Hlt].
    + simpl. lia.
    + assert (0 < 2 ^ (10 * Z.of_nat k)) by (apply Z.pow_pos_nonneg; lia).
      pose proof (Z.mul_div_le size (2 ^ 10)).
      pose proof (Z_div_mod_eq_full size (2^10)). 
      assert (2 ^ (10 * Z.of_nat k) + 1 <= size / 2 ^ 10) by lia.
      nia.
  - exists 0%nat, remaining.
    simpl. rewrite Z.div_1_r, Nat.add_0_r.
    repeat split; lia.
Qed.

(** For a size of 63 bits the loop runs at most six times, and at most five
    times when it leaves more than 999. *)
Lemma scale_bounds (size : Z) :
  0 <= size < 2 ^ 63 ->
  exists (s r : Z) (u : nat),
    scale size 0 0 = (s, r, u) /\
    0 <= s <= 1024 /\ 0 <= r <= 1023 /\ (u <= 6)%nat /\ (999 < s -> (u <= 5)%nat).
Proof.
  intros Hsize.
  destruct (scale_shape size 0 0) as (k & r & Hk & Hr & Hs & Hlt); try lia.
  exists (size / 2 ^ (10 * Z.of_nat k)), r, k.
  split; [exact Hk|]. split; [exact Hs|]. split; [exact Hr|].
  assert (Hk6 : (k <= 6)%nat).
  { destruct Hlt as [-> | Hlt]; [lia|].
    destruct (le_gt_dec k 6) as [|Hgt]; [assumption|exfalso].
    assert (2 ^ 63 <= 2 ^ (10 * Z.of_nat k)) by (apply Z.pow_le_mono_r; lia).
    lia. }
  split; [exact Hk6|].
  intros Hbig.
  destruct (le_gt_dec k 5) as [|Hgt]; [assumption|exfalso].
  assert (k = 6%nat) by lia. subst k.
  change (2 ^ (10 * Z.of_nat 6)) with (2 ^ 60) in *.
  assert (size / 2 ^ 60 < 8) by (apply Z.div_lt_upper_bound; lia).
  lia.
Qed.

Lemma digit_char (d : Z) :
  0 <= d <= 9 ->
  is_digit (gchar (d + code "0")) = true /\
  (d <> 0 -> Ascii.eqb (gchar (d + code "0")) "0" = false).
Proof.
  intros Hd.
  assert (d = 0 \/ d = 1 \/ d = 2 \/ d = 3 \/ d = 4 \/ d = 5 \/ d = 6 \/ d = 7
          \/ d = 8 \/ d = 9) as Hcases by lia.
  repeat (destruct Hcases as [-> | Hcases]); try subst d;
    (split; [reflexivity | intros; try reflexivity; congruence]).
Qed.

Lemma int_digits_ok (n : Z) :
  0 <= n <= 999 ->
  int_part_ok (list_ascii_of_string (int_digits n)) = true.
Proof.
  intros Hn. unfold int_digits.
  destruct (Z.gtb_spec n 99) as [H99 | H99].
  - rewrite (Z.quot_div_nonneg n 100), (Z.rem_mod_nonneg n 100) by lia.
    rewrite (Z.quot_div_nonneg (n mod 100) 10), (Z.rem_mod_nonneg (n mod 100) 10)
      by divlia.
    destruct (digit_char (n / 100)) as [Ha Ha0]; [divlia|].
    destruct (digit_char (n mod 100 / 10)) as [Hb _]; [divlia|].
    destruct (digit_char ((n mod 100) mod 10)) as [Hc _]; [divlia|].
    cbn [list_ascii_of_string str1 int_part_ok].
    rewrite Ha, Hb, Hc, Ha0 by divlia. reflexivity.
  - destruct (Z.gtb_spec n 9) as [H9 | H9].
    + rewrite (Z.quot_div_nonneg n 10), (Z.rem_mod_nonneg n 10) by lia.
      destruct (digit_char (n / 10)) as [Ha Ha0]; [divlia|].
      destruct (digit_char (n mod 10)) as [Hb _]; [divlia|].
      cbn [list_ascii_of_string str1 int_part_ok].
      rewrite Ha, Hb, Ha0 by divlia. reflexivity.
    + destruct (digit_char n) as [Ha _]; [lia|].
      cbn [list_ascii_of_string str1 int_part_ok]. exact Ha.
Qed.

Lemma list_ascii_of_string_app (s t : string) :
  list_ascii_of_string (s ++ t) = (list_ascii_of_string s ++ list_ascii_of_string t)%list.
Proof. induction s as [|c s IH]; simpl; [reflexivity | now rewrite IH]. Qed.

Lemma string_length_list (s : string) :
  String.length s = List.length (list_ascii_of_string s).
Proof. induction s as [|c s IH]; simpl; [reflexivity | now rewrite IH]. Qed.

Lemma int_part_ok_length (ds : list ascii) :
  int_part_ok ds = true -> In (List.length ds) [1; 2; 3]%nat.
Proof.
  destruct ds as [|a [|b [|c [|d ds]]]]; simpl; intros H; try discriminate; auto.
Qed.

Lemma size_pattern_intro (s : string) (ds t : list ascii) :
  list_ascii_of_string s = (ds ++ t)%list ->
  int_part_ok ds = true -> tail_ok t = true ->
  size_pattern s = true.
Proof.
  intros Hs Hds Ht. unfold size_pattern. rewrite Hs.
  apply existsb_exists. exists (List.length ds).
  split; [now apply int_part_ok_length|].
  rewrite firstn_app, Nat.sub_diag, firstn_all, firstn_O, app_nil_r.
  rewrite skipn_app, Nat.sub_diag, skipn_all, skipn_O. simpl.
  now rewrite Hds, Ht.
Qed.

(** The fraction and the unit letter, for a unit index up to 6. *)
Lemma tail_ok_unit (d : Z) (u : nat) :
  0 <= d <= 9 -> (u <= 6)%nat ->
  let t := list_ascii_of_string
             ((if Nat.eqb u 0 then "" else String "." (str1 (gchar (d + code "0"))))
              ++ str1 (unit_at u)) in
  tail_ok t = true /\ (List.length t <= 3)%nat.
Proof.
  intros Hd Hu.
  destruct (digit_char d Hd) as [Hdig _].
  do 7 (destruct u as [|u];
        [cbn -[is_digit gchar code]; rewrite ?Hdig; split; [reflexivity | lia]|]).
  lia.
Qed.

Lemma finish_ok (s r : Z) (u : nat) :
  0 <= s <= 1024 -> 0 <= r <= 1023 -> (u <= 6)%nat -> (999 < s -> (u <= 5)%nat) ->
  size_pattern (finish (s, r, u)) = true /\
  (String.length (finish (s, r, u)) <= 6)%nat.
Proof.
  intros Hs Hr Hu Hu5. unfold finish.
  rewrite (Z.quot_div_nonneg r 100) by lia.
  set (d := if r / 100 >? 9 then 9 else r / 100).
  assert (Hd : 0 <= d <= 9).
  { subst d. destruct (Z.gtb_spec (r / 100) 9); divlia. }
  assert (Hshape : forall n d' u', 0 <= n <= 999 -> 0 <= d' <= 9 -> (u' <= 6)%nat ->
    let out := int_digits n
               ++ (if Nat.eqb u' 0 then "" else String "." (str1 (gchar (d' + code "0"))))
               ++ str1 (unit_at u') in
    size_pattern out = true /\ (String.length out <= 6)%nat).
  { intros n d' u' Hn Hd' Hu' out.
    destruct (tail_ok_unit d' u' Hd' Hu') as [Ht Hlen].
    pose proof (int_digits_ok n Hn) as Hds.
    pose proof (int_part_ok_length _ Hds) as Hl.
    split.
    - eapply size_pattern_intro; [apply list_ascii_of_string_app | exact Hds | exact Ht].
    - subst out. rewrite string_length_list, list_ascii_of_string_app, length_app.
      simpl in Hl. lia. }
  destruct (Z.gtb_spec s 999) as [Hbig | Hsmall].
  - specialize (Hu5 Hbig). apply Hshape; lia.
  - apply Hshape; lia.
Qed.

(** Claim C9.  For every size from 0 up to the largest 64-bit offset, the
    string [dirlist_format_size] writes has the shape digits[.digit]unit:
    one to three digits without a leading zero, then a dot and one digit
    exactly when the unit is not B, then one letter of BKMGTPE.  It is at
    most 7 characters long, so that with its terminating NUL it fits the 8
    bytes of [sizebuf], and the unit pointer stays on one of the seven
    letters. *)
Theorem format_size_fits_sizebuf (size : Z) :
  0 <= size < 2 ^ 63 ->
  size_pattern (dirlist_format_size size) = true /\
  (String.length (dirlist_format_size size) <= 7)%nat /\
  len (dirlist_format_size size) + 1 <= sizeof_sizebuf /\
  (unit_index size <= 6)%nat.
Proof.
  intros Hsize.
  destruct (scale_bounds size Hsize) as (s & r & u & Hscale & Hs & Hr & Hu & Hu5).
  unfold dirlist_format_size, unit_index. rewrite Hscale.
  destruct (finish_ok s r u Hs Hr Hu Hu5) as [Hpat Hlen].
  split; [exact Hpat|]. split; [lia|]. split.
  - change sizeof_sizebuf with 8. unfold len. lia.
  - destruct (Z.gtb_spec s 999) as [Hbig | Hsmall]; [specialize (Hu5 Hbig)|]; lia.
Qed.

Lemma format_size_fits_sizebuf_witness :
  size_pattern (dirlist_format_size 1536) = true /\
  (String.length (dirlist_format_size 1536) <= 7)%nat /\
  len (dirlist_format_size 1536) + 1 <= sizeof_sizebuf /\
  (unit_index 1536 <= 6)%nat.
Proof. apply (format_size_fits_sizebuf 1536). lia. Defined.

(** The claim C3 as it is stated fails: 1024 is not written as 1.0K. *)
Lemma format_size_1024_is_not_1_0K :
  ~ (dirlist_format_size 0 = "0B" /\
     dirlist_format_size 999 = "999B" /\
     dirlist_format_size 1024 = "1.0K" /\
     dirlist_format_size (1024 * 1024) = "1.0M").
Proof. intros (_ & _ & H & _). vm_compute in H. discriminate H. Qed.

(** Claim C3, amended.  [dirlist_format_size] maps 0 to 0B and 999 to 999B.
    The loop divides only while the size is greater than 1024, so 1024 and
    1024*1024 are left at 1024 of their unit and fall under the rule for
    values above 999: they are written 0.9K and 0.9M.  1.0K and 1.0M are
    what 1025 and 1025*1024 give. *)
Theorem format_size_examples :
  dirlist_format_size 0 = "0B" /\
  dirlist_format_size 999 = "999B" /\
  dirlist_format_size 1024 = "0.9K" /\
  dirlist_format_size (1024 * 1024) = "0.9M" /\
  dirlist_format_size 1025 = "1.0K" /\
  dirlist_format_size (1025 * 1024) = "1.0M".
Proof. repeat split; vm_compute; reflexivity. Qed.

(** ** Classification *)


(** What one turn of the loop can do to the arrays and the flags. *)
Lemma classify_entry_inv h dd i sced a a' :
  classify_entry h dd i sced a = Some a' ->
  ((directories a' = directories a /\ files a' = files a)
   \/ (sced_failed sced = false /\ is_directory sced = true /\
       directories a' = (directories a ++ [i])%list /\ files a' = files a)
   \/ (sced_failed sced = false /\ is_directory sced = false /\
       directories a' = directories a /\ files a' = (files a ++ [i])%list))
  /\ (have_header a' = have_header a
      \/ (sced_failed sced = false /\ is_directory sced = false /\
          g_str_equal_path h sced "HEADER.txt" = true))
  /\ (have_readme a' = have_readme a
      \/ (sced_failed sced = false /\ is_directory sced = false /\
          g_str_equal_path h sced "README.txt" = true)).
Proof.
  unfold classify_entry, is_directory.
  destruct (sced_failed sced) eqn:Hfailed.
  { intros [= <-]. auto. }
  destruct (and_then _ _) as [[|]|]; try discriminate.
  { intros [= <-]. auto. }
  destruct (and_then _ _) as [[|]|]; try discriminate.
  { intros [= <-]. auto. }
  destruct (existsb _ (exclude_suffix dd)).
  { intros [= <-]. auto. }
  destruct (existsb _ (exclude_prefix dd)).
  { intros [= <-]. auto. }
  destruct (S_ISDIR _) eqn:Hdir.
  { destruct (hide_directories dd); intros [= <-]; simpl; auto 10. }
  destruct (include_header dd), (hide_header dd), (include_readme dd), (hide_readme dd),
    (g_str_equal_path h sced "HEADER.txt"), (g_str_equal_path h sced "README.txt"),
    (includable (sced_st sced));
    simpl; intros [= <-]; simpl; auto 10.
Qed.

(** Every index of the two arrays is that of an entry whose stat did not
    fail, in [directories] of a directory and in [files] of another file;
    a flag is set by such a file only. *)
Lemma classify_from_inv h dd entries :
  forall i a r,
    classify_from h dd i entries a = Some r ->
    (forall j, In j (directories r) ->
       In j (directories a) \/
       exists e, (i <= j)%nat /\ nth_error entries (j - i) = Some e /\
                 sced_failed e = false /\ is_directory e = true)
    /\ (forall j, In j (files r) ->
       In j (files a) \/
       exists e, (i <= j)%nat /\ nth_error entries (j - i) = Some e /\
                 sced_failed e = false /\ is_directory e = false)
    /\ (have_header r = true ->
        have_header a = true \/
        exists e, In e entries /\ sced_failed e = false /\ is_directory e = false /\
                  g_str_equal_path h e "HEADER.txt" = true)
    /\ (have_readme r = true ->
        have_readme a = true \/
        exists e, In e entries /\ sced_failed e = false /\ is_directory e = false /\
                  g_str_equal_path h e "README.txt" = true).
Proof.
  induction entries as [|sced rest IH]; intros i a r; simpl.
  { intros [= <-]. auto. }
  destruct (classify_entry h dd i sced a) as [a'|] eqn:Hstep; [|discriminate].
  intros Hrest.
  destruct (IH _ _ _ Hrest) as (Hd & Hf & Hh & Hr).
  destruct (classify_entry_inv _ _ _ _ _ _ Hstep) as (Harr & Hhead & Hread).
  assert (Hshift : forall j e, (S i <= j)%nat -> nth_error rest (j - S i) = Some e ->
                     nth_error (sced :: rest) (j - i) = Some e).
  { intros j e Hj Hn. replace (j - i)%nat with (S (j - S i)) by lia. exact Hn. }
  assert (Hhere : nth_error (sced :: rest) (i - i) = Some sced)
    by (rewrite Nat.sub_diag; reflexivity).
  repeat split.
  - intros j Hj. destruct (Hd j Hj) as [Hin | (e & Hle & Hn & He)].
    + destruct Harr as [[Ha' _] | [(Hfl & Hdir & Ha' & _) | (_ & _ & Ha' & _)]];
        rewrite Ha' in Hin; auto.
      apply in_app_or in Hin. destruct Hin as [Hin | [<- | []]]; auto.
      right. exists sced. auto.
    + right. exists e. split; [lia|]. split; [now apply Hshift|]. exact He.
  - intros j Hj. destruct (Hf j Hj) as [Hin | (e & Hle & Hn & He)].
    + destruct Harr as [[_ Ha'] | [(_ & _ & _ & Ha') | (Hfl & Hdir & _ & Ha')]];
        rewrite Ha' in Hin; auto.
      apply in_app_or in Hin. destruct Hin as [Hin | [<- | []]]; auto.
      right. exists sced. auto.
    + right. exists e. split; [lia|]. split; [now apply Hshift|]. exact He.
  - intros Hset. destruct (Hh Hset) as [Hin | (e & Hin & He)].
    + destruct Hhead as [Ha' | He]; [rewrite Ha' in Hin; auto|].
      right. exists sced. split; [now left | exact He].
    + right. exists e. split; [now right | exact He].
  - intros Hset. destruct (Hr Hset) as [Hin | (e & Hin & He)].
    + destruct Hread as [Ha' | He]; [rewrite Ha' in Hin; auto|].
      right. exists sced. split; [now left | exact He].
    + right. exists e. split; [now right | exact He].
Qed.

Lemma classify_inv h dd entries r :
  classify h dd entries = Some r ->
  (forall j, In j (directories r) ->
     exists e, nth_error entries j = Some e /\
               sced_failed e = false /\ is_directory e = true)
  /\ (forall j, In j (files r) ->
     exists e, nth_error entries j = Some e /\
               sced_failed e = false /\ is_directory e = false)
  /\ (have_header r = true ->
      exists e, In e entries /\ sced_failed e = false /\ is_directory e = false /\
                g_str_equal_path h e "HEADER.txt" = true)
  /\ (have_readme r = true ->
      exists e, In e entries /\ sced_failed e = false /\ is_directory e = false /\
                g_str_equal_path h e "README.txt" = true).
Proof.
  intros Hc. destruct (classify_from_inv _ _ _ _ _ _ Hc) as (Hd & Hf & Hh & Hr).
  simpl in *. repeat split.
  - intros j Hj. destruct (Hd j Hj) as [[] | (e & _ & Hn & He)].
    rewrite Nat.sub_0_r in Hn. eauto.
  - intros j Hj. destruct (Hf j Hj) as [[] | (e & _ & Hn & He)].
    rewrite Nat.sub_0_r in Hn. eauto.
  - intros Hset. destruct (Hh Hset) as [Habs | He]; [discriminate | exact He].
  - intros Hset. destruct (Hr Hset) as [Habs | He]; [discriminate | exact He].
Qed.

(** The rows of an index array are the rows of the entries it names. *)
Lemma rows_of_entries (P : liStatCacheEntryData -> Prop) row entries indices :
  (forall j, In j indices -> exists e, nth_error entries j = Some e /\ P e) ->
  exists es, rows row entries indices = Some (concat_all (map row es)) /\ Forall P es.
Proof.
  induction indices as [|idx indices IH]; intros Hall; simpl.
  - exists []. split; [reflexivity | constructor].
  - destruct (Hall idx (or_introl eq_refl)) as (e & -> & He).
    destruct IH as (es & -> & Hes); [intros j Hj; apply Hall; now right|].
    exists (e :: es). split; [reflexivity | now constructor].
Qed.

(** Claim C7.  An entry whose [failed] flag is set is skipped: its turn of
    the loop leaves the arrays and flags as they are, its index is in
    neither [directories] nor [files], and the rows of the table are the
    rows of entries whose stat did not fail. *)
Theorem failed_entries_are_skipped h dd entries i sced :
  nth_error entries i = Some sced ->
  sced_failed sced = true ->
  (forall a, classify_entry h dd i sced a = Some a) /\
  (forall r, classify h dd entries = Some r ->
     ~ In i (directories r) /\ ~ In i (files r) /\
     exists ds fs,
       rows (directory_row h) entries (directories r)
         = Some (concat_all (map (directory_row h) ds)) /\
       rows (file_row h) entries (files r)
         = Some (concat_all (map (file_row h) fs)) /\
       Forall (fun e => sced_failed e = false) (ds ++ fs)).
Proof.
  intros Hnth Hfailed. split.
  - intros a. unfold classify_entry. now rewrite Hfailed.
  - intros r Hc. destruct (classify_inv _ _ _ _ Hc) as (Hd & Hf & _ & _).
    split; [|split].
    + intros Hin. destruct (Hd i Hin) as (e & Hn & He & _). congruence.
    + intros Hin. destruct (Hf i Hin) as (e & Hn & He & _). congruence.
    + destruct (rows_of_entries (fun e => sced_failed e = false) (directory_row h)
                  entries (directories r)) as (ds & Hds & Hdsf).
      { intros j Hj. destruct (Hd j Hj) as (e & Hn & He & _). eauto. }
      destruct (rows_of_entries (fun e => sced_failed e = false) (file_row h)
                  entries (files r)) as (fs & Hfs & Hfsf).
      { intros j Hj. destruct (Hf j Hj) as (e & Hn & He & _). eauto. }
      exists ds, fs. repeat split; try assumption.
      apply Forall_app. now split.
Qed.

Lemma failed_entries_are_skipped_witness :
  nth_error mixed_dir 1 = Some (failed_entry "gone") /\
  sced_failed (failed_entry "gone") = true /\
  classify (server mixed_dir [] false) default_data mixed_dir
  = Some {| directories := [0; 2]%nat; files := [3%nat];
            have_header := false; have_readme := false |} /\
  (forall a,
     classify_entry (server mixed_dir [] false) default_data 1 (failed_entry "gone") a
     = Some a) /\
  (forall r, classify (server mixed_dir [] false) default_data mixed_dir = Some r ->
     ~ In 1%nat (directories r) /\ ~ In 1%nat (files r) /\
     exists ds fs,
       rows (directory_row (server mixed_dir [] false)) mixed_dir (directories r)
         = Some (concat_all (map (directory_row (server mixed_dir [] false)) ds)) /\
       rows (file_row (server mixed_dir [] false)) mixed_dir (files r)
         = Some (concat_all (map (file_row (server mixed_dir [] false)) fs)) /\
       Forall (fun e => sced_failed e = false) (ds ++ fs)).
Proof.
  split; [reflexivity|]. split; [reflexivity|]. split; [reflexivity|].
  apply (failed_entries_are_skipped (server mixed_dir [] false) default_data
           mixed_dir 1 (failed_entry "gone")); reflexivity.
Defined.

(** Claim C8.  An entry whose mode says directory, whatever its name, is
    never put into [files]: its turn of the loop leaves [files],
    [have_header] and [have_readme] as they are and does the same whatever
    the header and readme options and the comparison with the two names
    say.  Every index in [files] is that of an entry that is no directory,
    and a flag that is set was set by such an entry. *)
Theorem directory_is_never_a_file h dd entries i sced :
  nth_error entries i = Some sced ->
  is_directory sced = true ->
  (forall a a', classify_entry h dd i sced a = Some a' ->
     files a' = files a /\ have_header a' = have_header a /\
     have_readme a' = have_readme a) /\
  (forall h' inc_h hide_h inc_r hide_r a,
     classify_entry h'
       (set_include_header inc_h (set_hide_header hide_h
          (set_include_readme inc_r (set_hide_readme hide_r dd)))) i sced a
     = classify_entry h dd i sced a) /\
  (forall r, classify h dd entries = Some r ->
     ~ In i (files r) /\
     (forall j, In j (files r) ->
        exists e, nth_error entries j = Some e /\ is_directory e = false) /\
     (have_header r = true ->
        exists e, In e entries /\ is_directory e = false /\
                  g_str_equal_path h e "HEADER.txt" = true) /\
     (have_readme r = true ->
        exists e, In e entries /\ is_directory e = false /\
                  g_str_equal_path h e "README.txt" = true)).
Proof.
  intros Hnth Hdir. split; [|split].
  - intros a a' Hstep.
    destruct (classify_entry_inv _ _ _ _ _ _ Hstep) as (Harr & Hhead & Hread).
    repeat split.
    + destruct Harr as [[_ ->] | [(_ & _ & _ & ->) | (_ & Hno & _)]]; congruence.
    + destruct Hhead as [-> | (_ & Hno & _)]; congruence.
    + destruct Hread as [-> | (_ & Hno & _)]; congruence.
  - intros h' inc_h hide_h inc_r hide_r a.
    unfold classify_entry. unfold is_directory in Hdir. rewrite Hdir.
    reflexivity.
  - intros r Hc. destruct (classify_inv _ _ _ _ Hc) as (_ & Hf & Hh & Hr).
    repeat split.
    + intros Hin. destruct (Hf i Hin) as (e & Hn & _ & He). congruence.
    + intros j Hj. destruct (Hf j Hj) as (e & Hn & _ & He). eauto.
    + intros Hset. destruct (Hh Hset) as (e & Hin & _ & He). eauto.
    + intros Hset. destruct (Hr Hset) as (e & Hin & _ & He). eauto.
Qed.

Lemma directory_is_never_a_file_witness :
  nth_error mixed_dir 2 = Some (entry "HEADER.txt" directory 4096) /\
  is_directory (entry "HEADER.txt" directory 4096) = true /\
  classify (server mixed_dir [] false) all_header_options mixed_dir
  = Some {| directories := [0; 2]%nat; files := [3%nat];
            have_header := false; have_readme := false |} /\
  (forall r,
     classify (server mixed_dir [] false) all_header_options mixed_dir = Some r ->
     ~ In 2%nat (files r)).
Proof.
  split; [reflexivity|]. split; [reflexivity|]. split; [reflexivity|].
  intros r Hr.
  apply (directory_is_never_a_file (server mixed_dir [] false) all_header_options
           mixed_dir 2 (entry "HEADER.txt" directory 4096));
    [reflexivity | reflexivity | exact Hr].
Defined.

(** ** Reads of the name *)

Lemma string_get_in_range (s : string) (n : nat) :
  (n < String.length s)%nat -> exists c, String.get n s = Some c.
Proof.
  revert n. induction s as [|c s IH]; intros n Hn; simpl in Hn; [lia|].
  destruct n as [|n]; simpl; [eauto | apply IH; lia].
Qed.

Lemma g_string_index_in_range (s : string) (i : Z) :
  0 <= i < len s -> exists c, g_string_index s i = Some c.
Proof.
  intros Hi. unfold g_string_index.
  destruct (Z.leb_spec 0 i); [|lia].
  destruct (Z.ltb_spec i (len s)); [|lia].
  simpl. apply string_get_in_range. unfold len in Hi. lia.
Qed.

Lemma len_positive (s : string) : s <> "" -> 0 < len s.
Proof. destruct s; [congruence | unfold len; simpl; lia]. Qed.

(** The index [len - 1], computed in [gsize], of a string that is not
    empty lies in the string. *)
Lemma last_index_in_range (s : string) :
  s <> "" -> 0 <= gsize (len s - 1) < len s.
Proof.
  intros Hs. pose proof (len_positive s Hs). unfold gsize.
  pose proof (Z.mod_pos_bound (len s - 1) (2 ^ 64) ltac:(lia)).
  pose proof (Z.mod_le (len s - 1) (2 ^ 64) ltac:(lia) ltac:(lia)).
  lia.
Qed.

Lemma and_then_defined (b : bool) (c x : ascii) :
  exists r, and_then b (char_is c (Some x)) = Some r.
Proof. destruct b; simpl; eauto. Qed.

Lemma classify_entry_defined h dd i sced a :
  sced_path sced <> "" -> exists a', classify_entry h dd i sced a = Some a'.
Proof.
  intros Hname. unfold classify_entry.
  destruct (sced_failed sced); [eauto|].
  destruct (g_string_index_in_range (sced_path sced) 0) as [c0 ->].
  { pose proof (len_positive _ Hname). lia. }
  destruct (g_string_index_in_range (sced_path sced) (gsize (len (sced_path sced) - 1)))
    as [c1 ->].
  { now apply last_index_in_range. }
  destruct (and_then_defined (hide_dotfiles dd) "." c0) as [dot ->].
  destruct dot; [eauto|].
  destruct (and_then_defined (hide_tildefiles dd) "~" c1) as [tilde ->].
  destruct tilde; [eauto|].
  repeat match goal with
         | |- context [if ?b then _ else _] => destruct b
         end; eauto.
Qed.

Lemma classify_from_defined h dd entries :
  Forall (fun e => sced_path e <> "") entries ->
  forall i a, exists r, classify_from h dd i entries a = Some r.
Proof.
  induction 1 as [|sced rest Hname _ IH]; intros i a; simpl; [eauto|].
  destruct (classify_entry_defined h dd i sced a Hname) as [a' ->].
  apply IH.
Qed.

Lemma classify_entry_empty_name h dd i sced a :
  hide_tildefiles dd = true -> sced_failed sced = false -> sced_path sced = "" ->
  classify_entry h dd i sced a = None.
Proof.
  intros Htilde Hfailed Hname. unfold classify_entry.
  rewrite Hfailed, Htilde, Hname.
  destruct (hide_dotfiles dd); reflexivity.
Qed.

Lemma classify_from_empty_name h dd before sced after :
  hide_tildefiles dd = true -> sced_failed sced = false -> sced_path sced = "" ->
  forall i a, classify_from h dd i (before ++ sced :: after) a = None.
Proof.
  intros Htilde Hfailed Hname.
  induction before as [|e before IH]; intros i a; simpl.
  - now rewrite classify_entry_empty_name.
  - destruct (classify_entry h dd i e a); [apply IH | reflexivity].
Qed.

(** Claim C10.  When no entry has an empty name, every read of a name that
    classification makes lies in the name, and classification has a result.
    With [hide_tildefiles] set, an entry without a name whose stat did not
    fail is read at index [len - 1], which is outside its string, and
    classification has no defined result. *)
Theorem classification_reads_in_bounds h dd entries :
  (Forall (fun e => sced_path e <> "") entries ->
   exists r, classify h dd entries = Some r) /\
  (forall before sced after,
     entries = (before ++ sced :: after)%list ->
     hide_tildefiles dd = true -> sced_failed sced = false -> sced_path sced = "" ->
     g_string_index (sced_path sced) (gsize (len (sced_path sced) - 1)) = None /\
     classify h dd entries = None).
Proof.
  split.
  - intros Hall. now apply classify_from_defined.
  - intros before sced after -> Htilde Hfailed Hname. split.
    + rewrite Hname. reflexivity.
    + now apply classify_from_empty_name.
Qed.

Lemma classification_reads_in_bounds_witness :
  (exists r, classify (server mixed_dir [] false) default_data mixed_dir = Some r) /\
  g_string_index "" (gsize (len "" - 1)) = None /\
  classify (server nameless_dir [] false) default_data nameless_dir = None.
Proof.
  split.
  - apply (proj1 (classification_reads_in_bounds (server mixed_dir [] false)
                    default_data mixed_dir)).
    repeat constructor; discriminate.
  - apply (proj2 (classification_reads_in_bounds (server nameless_dir [] false)
                    default_data nameless_dir)
             [entry "a.txt" regular 5] (entry "" regular 0) []);
      reflexivity.
Defined.

(** ** Escaping of names *)

Lemma hex_pair_of_byte (c : ascii) :
  hex_pair (hex_char (code c / 16)) (hex_char (code c mod 16)) = Some c.
Proof.
  destruct c as [[|] [|] [|] [|] [|] [|] [|] [|]]; vm_compute; reflexivity.
Qed.

Lemma percent_escape_plain (c : ascii) (t : string) :
  Ascii.eqb c "%" = false -> percent_escape c t = None.
Proof.
  intros Hc. unfold percent_escape.
  destruct t as [|a [|b t]]; try reflexivity. now rewrite Hc.
Qed.

Lemma char_reference_plain (c : ascii) (t : string) :
  Ascii.eqb c "&" = false -> char_reference c t = None.
Proof.
  intros Hc. unfold char_reference.
  destruct t as [|h [|x [|a [|b [|e t]]]]]; try reflexivity. now rewrite Hc.
Qed.

Lemma uri_decode_char (c : ascii) (t : string) :
  uri_decode_from 0 (encode_char LI_ENCODING_URI c ++ t)
  = String c (uri_decode_from 0 t).
Proof.
  unfold encode_char. destruct (encode_map_uri c) eqn:Hmap.
  - cbn [append str1 uri_decode_from percent_escape].
    rewrite Ascii.eqb_refl, hex_pair_of_byte. reflexivity.
  - cbn [append str1 uri_decode_from].
    rewrite percent_escape_plain; [reflexivity|].
    destruct (Ascii.eqb_spec c "%") as [-> | Hne]; [discriminate Hmap | reflexivity].
Qed.

Lemma html_decode_char (c : ascii) (t : string) :
  html_decode_from 0 (encode_char LI_ENCODING_HTML c ++ t)
  = String c (html_decode_from 0 t).
Proof.
  unfold encode_char. destruct (encode_map_html c) eqn:Hmap.
  - cbn [append str1 html_decode_from char_reference].
    rewrite !Ascii.eqb_refl, hex_pair_of_byte. reflexivity.
  - cbn [append str1 html_decode_from].
    rewrite char_reference_plain; [reflexivity|].
    destruct (Ascii.eqb_spec c "&") as [-> | Hne]; [discriminate Hmap | reflexivity].
Qed.

Lemma append_assoc (a b c : string) : (a ++ b) ++ c = a ++ (b ++ c).
Proof. induction a as [|x a IH]; simpl; [reflexivity | now rewrite IH]. Qed.

Lemma append_empty_r (a : string) : a ++ "" = a.
Proof. induction a as [|x a IH]; simpl; [reflexivity | now rewrite IH]. Qed.

Lemma uri_decode_encoded (s t : string) :
  no_nul s = true ->
  uri_decode_from 0 (li_string_encode s LI_ENCODING_URI ++ t)
  = s ++ uri_decode_from 0 t.
Proof.
  unfold no_nul. induction s as [|c s IH]; intros Hs; [reflexivity|].
  cbn [list_ascii_of_string forallb] in Hs.
  apply andb_true_iff in Hs. destruct Hs as [Hc Hs].
  apply negb_true_iff in Hc.
  cbn [li_string_encode]. rewrite Hc.
  rewrite append_assoc, uri_decode_char, IH by assumption. reflexivity.
Qed.

Lemma html_decode_encoded (s t : string) :
  no_nul s = true ->
  html_decode_from 0 (li_string_encode s LI_ENCODING_HTML ++ t)
  = s ++ html_decode_from 0 t.
Proof.
  unfold no_nul. induction s as [|c s IH]; intros Hs; [reflexivity|].
  cbn [list_ascii_of_string forallb] in Hs.
  apply andb_true_iff in Hs. destruct Hs as [Hc Hs].
  apply negb_true_iff in Hc.
  cbn [li_string_encode]. rewrite Hc.
  rewrite append_assoc, html_decode_char, IH by assumption. reflexivity.
Qed.

(** Claim C5, amended.  For every entry name (a C string), also one with
    <, &, % or a space: URI-decoding the link target of its file row gives
    the name; URI-decoding the link target of its directory row gives the
    name followed by the slash the row appends; HTML-decoding the link text
    of either row gives the name. *)
Theorem link_round_trip (sced : liStatCacheEntryData) :
  no_nul (sced_path sced) = true ->
  uri_decode (file_href sced) = sced_path sced /\
  uri_decode (directory_href sced) = sced_path sced ++ "/" /\
  html_decode (link_text sced) = sced_path sced.
Proof.
  intros Hname. unfold uri_decode, html_decode, file_href, directory_href, link_text.
  repeat split.
  - rewrite <- (append_empty_r (li_string_encode _ _)).
    rewrite uri_decode_encoded by assumption. apply append_empty_r.
  - rewrite uri_decode_encoded by assumption. reflexivity.
  - rewrite <- (append_empty_r (li_string_encode _ _)).
    rewrite html_decode_encoded by assumption. apply append_empty_r.
Qed.

Lemma link_round_trip_witness :
  no_nul (sced_path (entry "a<b&c%d e" regular 5)) = true /\
  uri_decode (file_href (entry "a<b&c%d e" regular 5)) = "a<b&c%d e" /\
  uri_decode (directory_href (entry "a<b&c%d e" regular 5)) = "a<b&c%d e/" /\
  html_decode (link_text (entry "a<b&c%d e" regular 5)) = "a<b&c%d e".
Proof.
  split; [reflexivity|].
  apply (link_round_trip (entry "a<b&c%d e" regular 5)). reflexivity.
Defined.

(** The claim C5 as it is stated fails for directory rows: the link target
    of the directory sub decodes to sub/, not to sub. *)
Lemma directory_href_decodes_with_slash :
  no_nul (sced_path (entry "sub" directory 4096)) = true /\
  uri_decode (directory_href (entry "sub" directory 4096))
  <> sced_path (entry "sub" directory 4096).
Proof. split; [reflexivity | vm_compute; discriminate]. Qed.

(** ** The request path *)


Lemma ends_in_slash_nonempty (s : string) :
  ends_in_slash s = true -> (len s =? 0)%Z = false.
Proof.
  destruct s; [discriminate | intros _; reflexivity].
Qed.

Lemma dirlist_fresh h dd vr sce vr' :
  http_method vr = LI_HTTP_METHOD_GET \/ http_method vr = LI_HTTP_METHOD_HEAD ->
  handled vr = false ->
  physical_path vr <> "" ->
  li_stat_cache_get_dirlist h (physical_path vr) = LOOKUP_GO_ON sce ->
  sced_failed (sce_data sce) = false ->
  S_ISDIR (st_mode (sced_st (sce_data sce))) = true ->
  ends_in_slash (uri_path vr) = true ->
  li_etag_set_header h (claimed_200 dd vr) (sced_st (sce_data sce)) = (vr', true) ->
  dirlist h dd vr = Some (LI_HANDLER_GO_ON, set_http_status 304 vr').
Proof.
  intros Hmethod Hhandled Hpath Hlookup Hfailed Hdir Hslash Hetag.
  unfold dirlist.
  assert (Hlen : (len (physical_path vr) =? 0)%Z = false).
  { apply Z.eqb_neq. pose proof (len_positive _ Hpath). lia. }
  rewrite Hhandled, Hlen, Hlookup, Hfailed, Hdir, Hslash,
    (ends_in_slash_nonempty _ Hslash).
  unfold li_vrequest_handle_direct. rewrite Hhandled.
  unfold claimed_200 in Hetag. cbv beta iota zeta in Hetag |- *.
  rewrite Hetag.
  destruct Hmethod as [-> | ->]; reflexivity.
Qed.

(** Claim C6.  On the path that has the directory listing, when the
    validator says that the client's copy is fresh, [dirlist] returns
    [LI_HANDLER_GO_ON] with status 304 and the chunk queue as it found it.
    The run is the same whatever entries the stat cache lists and whatever
    files can be read: neither classification nor rendering takes part in
    it. *)
Theorem fresh_copy_short_circuits h dd vr sce vr' :
  http_method vr = LI_HTTP_METHOD_GET \/ http_method vr = LI_HTTP_METHOD_HEAD ->
  handled vr = false ->
  physical_path vr <> "" ->
  li_stat_cache_get_dirlist h (physical_path vr) = LOOKUP_GO_ON sce ->
  sced_failed (sce_data sce) = false ->
  S_ISDIR (st_mode (sced_st (sce_data sce))) = true ->
  ends_in_slash (uri_path vr) = true ->
  li_etag_set_header h (claimed_200 dd vr) (sced_st (sce_data sce)) = (vr', true) ->
  dirlist h dd vr = Some (LI_HANDLER_GO_ON, set_http_status 304 vr') /\
  http_status (set_http_status 304 vr') = 304 /\
  out (set_http_status 304 vr') = out vr /\
  forall entries read,
    dirlist (with_entries_and_files entries read h) dd vr = dirlist h dd vr.
Proof.
  intros Hmethod Hhandled Hpath Hlookup Hfailed Hdir Hslash Hetag.
  pose proof (dirlist_fresh _ _ _ _ _ Hmethod Hhandled Hpath Hlookup Hfailed Hdir
                Hslash Hetag) as Hrun.
  split; [exact Hrun|]. split; [reflexivity|]. split.
  - unfold li_etag_set_header in Hetag.
    destruct (li_etag h (claimed_200 dd vr) (sced_st (sce_data sce))) as [tag c].
    injection Hetag as <- _. reflexivity.
  - intros entries read. rewrite Hrun.
    apply dirlist_fresh
      with (sce := {| sce_data := sce_data sce; sce_dirlist := entries |});
      try assumption.
    cbn. now rewrite Hlookup.
Qed.

Lemma fresh_copy_short_circuits_witness :
  (http_method request = LI_HTTP_METHOD_GET \/ http_method request = LI_HTTP_METHOD_HEAD) /\
  handled request = false /\
  li_stat_cache_get_dirlist fresh_server (physical_path request)
  = LOOKUP_GO_ON (www nameless_dir) /\
  ends_in_slash (uri_path request) = true /\
  li_etag_set_header fresh_server (claimed_200 default_data request)
    (sced_st (sce_data (www nameless_dir))) = (request_with_etag, true) /\
  dirlist fresh_server default_data request
  = Some (LI_HANDLER_GO_ON, set_http_status 304 request_with_etag) /\
  http_status (set_http_status 304 request_with_etag) = 304 /\
  out (set_http_status 304 request_with_etag) = out request /\
  forall entries read,
    dirlist (with_entries_and_files entries read fresh_server) default_data request
    = dirlist fresh_server default_data request.
Proof.
  split; [left; reflexivity|]. split; [reflexivity|]. split; [reflexivity|].
  split; [reflexivity|]. split; [reflexivity|].
  apply (fresh_copy_short_circuits fresh_server default_data request
           (www nameless_dir) request_with_etag);
    try reflexivity.
  - left; reflexivity.
  - discriminate.
Defined.

(** ** The include files *)

Lemma prefix_empty (x : string) : String.prefix "" x = true.
Proof. now destruct x. Qed.

Lemma prefix_append (s x y : string) :
  String.prefix s x = true -> String.prefix s (x ++ y) = true.
Proof.
  revert x. induction s as [|c s IH]; intros x; [intros _; apply prefix_empty|].
  destruct x as [|d x]; simpl; [discriminate|].
  destruct (ascii_dec c d); [apply IH | discriminate].
Qed.

Lemma prefix_refl_append (s y : string) : String.prefix s (s ++ y) = true.
Proof.
  induction s as [|c s IH]; simpl; [apply prefix_empty|].
  destruct (ascii_dec c c); [exact IH | congruence].
Qed.

Lemma contains_unfold (s t : string) :
  contains s t
  = (String.prefix s t
     || match t with
        | EmptyString => false
        | String _ t' => contains s t'
        end)%bool.
Proof. destruct t; reflexivity. Qed.

Lemma contains_append_l (s x y : string) :
  contains s x = true -> contains s (x ++ y) = true.
Proof.
  induction x as [|c x IH]; intros H;
    rewrite contains_unfold in H; apply orb_true_iff in H;
    rewrite contains_unfold; apply orb_true_iff;
    destruct H as [H | H].
  - left. now apply prefix_append.
  - discriminate.
  - left. now apply prefix_append.
  - right. now apply IH.
Qed.

Lemma contains_append_r (s x y : string) :
  contains s y = true -> contains s (x ++ y) = true.
Proof.
  intros H. induction x as [|c x IH]; [exact H|].
  rewrite contains_unfold. cbn [append]. rewrite IH. apply orb_true_r.
Qed.

Lemma contains_end (s x : string) : contains s (x ++ s) = true.
Proof.
  apply contains_append_r. rewrite contains_unfold.
  rewrite <- (append_empty_r s) at 2. now rewrite prefix_refl_append.
Qed.

Lemma output_contains_last (s t : string) (o : list chunk) :
  contains s t = true -> output_contains s (o ++ [STRING_CHUNK t]) = true.
Proof.
  intros H. unfold output_contains. rewrite existsb_app. simpl.
  rewrite H. now rewrite orb_true_r.
Qed.

(** With [encode_header] set, a HEADER.txt of at most 64 KiB is in every
    rendered document, escaped and between pre tags; [include_header] is not
    asked. *)
Lemma render_inlines_header h dd vr sce a contents vr' :
  encode_header dd = true ->
  read_file h (li_path_append_slash (physical_path vr) ++ "HEADER.txt") = Some contents ->
  len contents <= MAX_INCLUDE_FILE_SIZE ->
  render h dd vr sce a = Some vr' ->
  output_contains ("<pre>" ++ li_string_encode contents LI_ENCODING_HTML ++ "</pre>")
    (out vr') = true.
Proof.
  intros Henc Hread Hsize. unfold render.
  unfold try_append_file at 1. rewrite Henc, Hread.
  destruct (Z.gtb_spec (len contents) MAX_INCLUDE_FILE_SIZE) as [Hbig|_]; [lia|].
  cbn [negb].
  destruct (if negb (hide_directories dd) then _ else _) as [dirs|]; [|discriminate].
  destruct (rows (file_row h) (sce_dirlist sce) (files a)) as [fls|]; [|discriminate].
  set (pre := "<pre>" ++ li_string_encode contents LI_ENCODING_HTML ++ "</pre>").
  match goal with
  | |- context [try_append_file h _ _ ?buf "README.txt" _] =>
      assert (Hbuf : contains pre buf = true)
        by (do 3 apply contains_append_l; apply contains_end);
      set (listing := buf) in *
  end.
  unfold try_append_file. cbn [negb].
  destruct (read_file h (li_path_append_slash (physical_path vr) ++ "README.txt"))
    as [readme|];
    [destruct (len readme >? MAX_INCLUDE_FILE_SIZE)%Z|];
    cbv beta iota zeta; intros [= <-]; cbn [out set_out];
    apply output_contains_last; apply contains_append_l;
    first [exact Hbuf | apply contains_append_l; exact Hbuf].
Qed.

(** The flags classification computes have no part in rendering. *)
Lemma render_ignores_flags h dd vr sce a :
  render h dd vr sce (set_have_header a) = render h dd vr sce a /\
  render h dd vr sce (set_have_readme a) = render h dd vr sce a.
Proof. split; reflexivity. Qed.

(** Claim C1, which the code does not meet.  In a directory whose
    HEADER.txt has five bytes, with the default configuration, where
    [include_header] is off, classification leaves [have_header] unset and
    the rendered document still contains the content of the file between
    pre tags: [dirlist] calls [try_append_file] for HEADER.txt without
    looking at the option or the flag. *)
Theorem header_is_inlined_without_include_header :
  include_header default_data = false /\
  option_map have_header (classify header_server default_data header_dir) = Some false /\
  output_contains "<pre>hello</pre>" (output (dirlist header_server default_data request))
  = true.
Proof. vm_compute. repeat split. Qed.

Lemma classify_from_ignores_encode_readme h dd b entries :
  forall i a,
    classify_from h (set_encode_readme b dd) i entries a
    = classify_from h dd i entries a.
Proof.
  induction entries as [|sced rest IH]; intros i a; simpl; [reflexivity|].
  change (classify_entry h (set_encode_readme b dd) i sced a)
    with (classify_entry h dd i sced a).
  destruct (classify_entry h dd i sced a); [apply IH | reflexivity].
Qed.

(** No run of [dirlist] depends on [encode_readme]. *)
Lemma dirlist_ignores_encode_readme h dd vr b :
  dirlist h (set_encode_readme b dd) vr = dirlist h dd vr.
Proof.
  unfold dirlist.
  destruct (http_method vr); try reflexivity;
    (destruct (handled vr); [reflexivity|];
     destruct (len (physical_path vr) =? 0)%Z; [reflexivity|];
     destruct (li_stat_cache_get_dirlist h (physical_path vr)) as [sce| |];
     try reflexivity;
     destruct (sced_failed (sce_data sce)); [reflexivity|];
     destruct (negb (S_ISDIR (st_mode (sced_st (sce_data sce))))); [reflexivity|];
     destruct ((len (uri_path vr) =? 0)%Z || negb (ends_in_slash (uri_path vr)))%bool;
     [reflexivity|];
     destruct (li_vrequest_handle_direct vr) as [[|] vr1]; [|reflexivity];
     cbv zeta; cbn [content_type set_encode_readme];
     destruct (li_etag_set_header h _ (sced_st (sce_data sce))) as [vr2 [|]];
     [reflexivity|];
     unfold classify; rewrite classify_from_ignores_encode_readme;
     reflexivity).
Qed.

(** Claim C2, which the code does not meet.  In a directory whose
    README.txt holds <b>: with [encode_readme] off and [encode_header] on
    the content is escaped and wrapped in pre tags, no file chunk is queued;
    with [encode_readme] on and [encode_header] off the file is queued as
    it is and nothing is wrapped.  The call for README.txt is given
    [encode_header]. *)
Theorem readme_encoding_follows_encode_header :
  (encode_readme (set_encode_readme false default_data) = false /\
   output_contains "<pre>&#x3c;b&#x3e;</pre>"
     (output (dirlist readme_server (set_encode_readme false default_data) request))
   = true /\
   output_has_file
     (output (dirlist readme_server (set_encode_readme false default_data) request))
   = false) /\
  (encode_readme (set_encode_header false default_data) = true /\
   output_contains "<pre>"
     (output (dirlist readme_server (set_encode_header false default_data) request))
   = false /\
   In (FILE_CHUNK "/srv/www/README.txt" 0 3)
     (output (dirlist readme_server (set_encode_header false default_data) request))).
Proof. vm_compute. repeat split. auto. Qed.

(** ** dirlist_create *)

Lemma add_strings_accepts wild message l elements arr :
  add_strings wild message (value_list l) elements arr
  = inr (arr ++ map (data_string wild) elements)%list.
Proof.
  revert arr. induction elements as [|e rest IH]; intros arr; simpl.
  - now rewrite app_nil_r.
  - rewrite IH, <- app_assoc. reflexivity.
Qed.

(** Values of a wrong type and unknown keys are refused. *)
Example wrong_types_are_refused (wild : liValue -> string) :
  map (fun option => rejected (dirlist_create wild (Some (value_list [option]))))
    [key_value "hide-dotfiles" (value_string "yes");
     key_value "css" (value_boolean true);
     key_value "exclude-suffix" (value_string ".bak");
     key_value "hide-suffix" (value_list [value_string ".bak"]);
     value_list [value_number 1; value_boolean true];
     key_value "exclude-suffix" (value_list [value_string ".bak"])]
  = [true; true; true; true; true; false].
Proof. reflexivity. Qed.

(** Claim C4, which the code does not meet.  The list [(false, ".bak")]
    given for exclude-suffix or exclude-prefix is not rejected, although its
    first element is no string: the loop over the elements tests the type of
    the list, never that of the element, reads each element as a string and
    adds it.  The configuration is accepted, with the string read from
    [false], the empty one, in front of [.bak]. *)
Theorem non_string_element_is_accepted (wild : liValue -> string) :
  dirlist_create wild
    (Some (value_list
       [key_value "exclude-suffix" (value_list [value_boolean false; value_string ".bak"])]))
  = inr (set_exclude_suffix [wild (value_boolean false); ".bak"] default_data) /\
  dirlist_create wild
    (Some (value_list
       [key_value "exclude-prefix" (value_list [value_boolean false; value_string ".bak"])]))
  = inr (set_exclude_prefix [wild (value_boolean false); ".bak"] default_data) /\
  rejected (dirlist_create wild
    (Some (value_list
       [key_value "exclude-suffix" (value_list [value_boolean false; value_string ".bak"])])))
  = false /\
  dirlist_create no_pun
    (Some (value_list
       [key_value "exclude-suffix" (value_list [value_boolean false; value_string ".bak"])]))
  = inr (set_exclude_suffix [""; ".bak"] default_data).
Proof. repeat split. Qed.

(** * Further properties *)

(** ** More on the size formatter *)

Lemma scale_exact (size remaining : Z) (u : nat) :
  0 <= size ->
  exists k : nat,
    scale size remaining u
    = (size / 2 ^ (10 * Z.of_nat k),
       match k with
       | O => remaining
       | S j => (size / 2 ^ (10 * Z.of_nat j)) mod 1024
       end,
       (u + k)%nat) /\
    size / 2 ^ (10 * Z.of_nat k) <= 1024 /\
    match k with
    | O => True
    | S j => 1024 < size / 2 ^ (10 * Z.of_nat j)
    end.
Proof.
  funelim (scale size remaining u); intros Hsize.
  - assert (Hs0 : 0 <= Z.shiftr size 10) by (apply Z.shiftr_nonneg; lia).
    destruct (H Hs0) as (k & Hk & Hle & Hgt).
    assert (Hdiv : forall j : nat, Z.shiftr size 10 / 2 ^ (10 * Z.of_nat j)
                   = size / 2 ^ (10 * Z.of_nat (S j))).
    { intros j. rewrite Z.shiftr_div_pow2 by lia.
      rewrite Z.div_div by lia.
      rewrite <- Z.pow_add_r by lia.
      f_equal. f_equal. lia. }
    exists (S k). rewrite Hk, !Hdiv in *.
    split; [|split; [exact Hle|]].
    + f_equal; [f_equal|lia].
      destruct k as [|j].
      * change 1023 with (Z.ones 10). rewrite Z.land_ones by lia.
        simpl. now rewrite Z.div_1_r.
      * now rewrite Hdiv.
    + destruct k as [|j].
      * simpl. rewrite Z.div_1_r. lia.
      * now rewrite Hdiv in Hgt.
  - exists 0%nat. simpl. rewrite Z.div_1_r, Nat.add_0_r.
    repeat split; lia.
Qed.

Lemma pow_1024 (k : nat) : 2 ^ (10 * Z.of_nat k) = 1024 ^ Z.of_nat k.
Proof. rewrite Z.pow_mul_r by lia. reflexivity. Qed.

Lemma pow_1024_pos (k : nat) : 0 < 1024 ^ Z.of_nat k.
Proof. apply Z.pow_pos_nonneg; lia. Qed.

Lemma pow_1024_mono (j k : nat) : (j <= k)%nat -> 1024 ^ Z.of_nat j <= 1024 ^ Z.of_nat k.
Proof. intros H. apply Z.pow_le_mono_r; lia. Qed.

Lemma div_le_bound (x d q : Z) : 0 < d -> x / d <= q -> x < (q + 1) * d.
Proof.
  intros Hd Hq. pose proof (Z_div_mod_eq_full x d).
  pose proof (Z.mod_pos_bound x d Hd). nia.
Qed.

Lemma div_gt_bound (x d q : Z) : 0 < d -> q < x / d -> (q + 1) * d <= x.
Proof.
  intros Hd Hq. pose proof (Z_div_mod_eq_full x d).
  pose proof (Z.mod_pos_bound x d Hd). nia.
Qed.

(** The number of turns of the loop is fixed by the band the size lies
    in. *)
Lemma scale_count (size : Z) (k : nat) :
  0 <= size ->
  size < 1025 * 1024 ^ Z.of_nat k ->
  match k with
  | O => True
  | S j => 1025 * 1024 ^ Z.of_nat j <= size
  end ->
  scale size 0 0
  = (size / 1024 ^ Z.of_nat k,
     match k with
     | O => 0
     | S j => (size / 1024 ^ Z.of_nat j) mod 1024
     end,
     k).
Proof.
  intros Hsize Hupper Hlower.
  destruct (scale_exact size 0 0 Hsize) as (k' & Hk & Hle & Hgt).
  rewrite pow_1024 in Hk, Hle.
  apply div_le_bound in Hle; [|apply pow_1024_pos].
  assert (Hlow' : match k' with
                  | O => True
                  | S j => 1025 * 1024 ^ Z.of_nat j <= size
                  end).
  { destruct k' as [|j]; [exact I|].
    rewrite pow_1024 in Hgt. apply div_gt_bound in Hgt; [lia | apply pow_1024_pos]. }
  assert (k' = k) as ->.
  { destruct (Nat.lt_trichotomy k' k) as [Hlt | [Heq | Hlt]]; [exfalso|exact Heq|exfalso].
    - destruct k as [|j]; [lia|].
      pose proof (pow_1024_mono k' j ltac:(lia)). lia.
    - destruct k' as [|j]; [lia|].
      pose proof (pow_1024_mono k j ltac:(lia)). lia. }
  rewrite Hk. f_equal. f_equal.
  destruct k as [|j]; [reflexivity|]. now rewrite pow_1024.
Qed.

Lemma int_digits_decimal (n : Z) : 0 <= n <= 999 -> int_digits n = decimal n.
Proof.
  intros Hn.
  assert (Hall : forallb (fun k => String.eqb (int_digits (Z.of_nat k))
                                     (decimal (Z.of_nat k)))
                   (seq 0 1000) = true) by (vm_compute; reflexivity).
  rewrite forallb_forall in Hall.
  specialize (Hall (Z.to_nat n)).
  rewrite Z2Nat.id in Hall by lia.
  apply String.eqb_eq, Hall, in_seq. lia.
Qed.

Lemma digit_decimal (d : Z) : 0 <= d <= 9 -> str1 (gchar (d + code "0")) = decimal d.
Proof.
  intros Hd.
  assert (d = 0 \/ d = 1 \/ d = 2 \/ d = 3 \/ d = 4 \/ d = 5 \/ d = 6 \/ d = 7
          \/ d = 8 \/ d = 9) as Hcases by lia.
  repeat (destruct Hcases as [-> | Hcases]); try subst d; reflexivity.
Qed.

(** A size below 1000 is written exactly: its decimal digits and the
    letter B. *)
Theorem format_size_exact_below_1000 (size : Z) :
  0 <= size <= 999 ->
  dirlist_format_size size = decimal size ++ "B".
Proof.
  intros Hsize. unfold dirlist_format_size.
  rewrite (scale_count size 0) by (simpl; lia || exact I).
  simpl Z.of_nat. rewrite Z.pow_0_r, Z.div_1_r.
  unfold finish.
  destruct (Z.gtb_spec size 999); [lia|].
  cbn [Nat.eqb]. now rewrite int_digits_decimal by lia.
Qed.

Lemma format_size_exact_below_1000_witness :
  0 <= 512 <= 999 /\ dirlist_format_size 512 = decimal 512 ++ "B".
Proof. split; [lia | apply (format_size_exact_below_1000 512); lia]. Defined.

(** A size in the band of the unit [1024^(j+1)], from [1025 * 1024^j] up to
    below [1000 * 1024^(j+1)], is written as its whole number of units, a
    dot, one digit and the unit letter.  The digit is the hundreds of the
    remainder that the last division by 1024 left, at most 9: it counts
    hundreds of the smaller unit, not tenths of the written one. *)
Theorem format_size_scaled (size : Z) (j : nat) :
  (j <= 5)%nat ->
  1025 * 1024 ^ Z.of_nat j <= size < 1000 * 1024 ^ Z.of_nat (S j) ->
  size < 2 ^ 63 ->
  dirlist_format_size size
  = decimal (size / 1024 ^ Z.of_nat (S j))
    ++ "."
    ++ decimal (Z.min 9 ((size / 1024 ^ Z.of_nat j) mod 1024 / 100))
    ++ str1 (unit_at (S j)).
Proof.
  intros Hj [Hlow Hhigh] H63.
  pose proof (pow_1024_pos j) as Hpj. pose proof (pow_1024_pos (S j)) as Hps.
  unfold dirlist_format_size.
  rewrite (scale_count size (S j)) by lia.
  set (s := size / 1024 ^ Z.of_nat (S j)).
  set (r := (size / 1024 ^ Z.of_nat j) mod 1024).
  assert (Hs : 1 <= s <= 999).
  { subst s. split.
    - apply Z.div_le_lower_bound; [lia|].
      replace (Z.of_nat (S j)) with (Z.of_nat j + 1) in * by lia.
      rewrite Z.pow_add_r in * by lia. lia.
    - assert (size / 1024 ^ Z.of_nat (S j) < 1000); [|lia].
      apply Z.div_lt_upper_bound; lia. }
  assert (Hr : 0 <= r < 1024) by (subst r; apply Z.mod_pos_bound; lia).
  unfold finish.
  rewrite (Z.quot_div_nonneg r 100) by lia.
  destruct (Z.gtb_spec s 999); [lia|].
  cbn [Nat.eqb].
  rewrite int_digits_decimal by lia.
  assert (Hd : (if r / 100 >? 9 then 9 else r / 100) = Z.min 9 (r / 100)).
  { destruct (Z.gtb_spec (r / 100) 9); lia. }
  rewrite Hd.
  rewrite <- (digit_decimal (Z.min 9 (r / 100)))
    by (Z.to_euclidean_division_equations; lia).
  reflexivity.
Qed.

Lemma format_size_scaled_witness :
  (1 <= 5)%nat /\
  1025 * 1024 ^ Z.of_nat 1 <= 5000000 < 1000 * 1024 ^ Z.of_nat 2 /\
  5000000 < 2 ^ 63 /\
  dirlist_format_size 5000000
  = decimal (5000000 / 1024 ^ Z.of_nat 2)
    ++ "."
    ++ decimal (Z.min 9 ((5000000 / 1024 ^ Z.of_nat 1) mod 1024 / 100))
    ++ str1 (unit_at 2).
Proof.
  split; [lia|]. split; [cbn; lia|]. split; [cbn; lia|].
  apply (format_size_scaled 5000000 1); cbn; lia.
Defined.

(** A size from [1000 * 1024^k] up to below [1025 * 1024^k], which would
    need four digits in the unit [1024^k], is written as 0.9 of the next
    unit. *)
Theorem format_size_saturates (size : Z) (k : nat) :
  (k <= 5)%nat ->
  1000 * 1024 ^ Z.of_nat k <= size < 1025 * 1024 ^ Z.of_nat k ->
  dirlist_format_size size = "0.9" ++ str1 (unit_at (S k)).
Proof.
  intros Hk [Hlow Hhigh].
  pose proof (pow_1024_pos k) as Hpk.
  unfold dirlist_format_size.
  rewrite (scale_count size k); try lia.
  - assert (Hs : 999 < size / 1024 ^ Z.of_nat k).
    { assert (1000 <= size / 1024 ^ Z.of_nat k); [|lia].
      apply Z.div_le_lower_bound; lia. }
    unfold finish.
    destruct (Z.gtb_spec (size / 1024 ^ Z.of_nat k) 999); [|lia].
    reflexivity.
  - destruct k as [|j]; [exact I|].
    replace (Z.of_nat (S j)) with (Z.of_nat j + 1) in * by lia.
    rewrite Z.pow_add_r in * by lia.
    pose proof (pow_1024_pos j). lia.
Qed.

Lemma format_size_saturates_witness :
  (2 <= 5)%nat /\
  1000 * 1024 ^ Z.of_nat 2 <= 1050000000 < 1025 * 1024 ^ Z.of_nat 2 /\
  dirlist_format_size 1050000000 = "0.9" ++ str1 (unit_at 3).
Proof.
  split; [lia|]. split; [cbn; lia|].
  apply (format_size_saturates 1050000000 2); cbn; lia.
Defined.

(** ** More on classification *)

Lemma string_get_last (s : string) :
  s <> "" -> String.get (String.length s - 1) s = last_char s.
Proof.
  induction s as [|c s IH]; [congruence|]. intros _.
  destruct s as [|d s]; [reflexivity|].
  cbn [String.length last_char].
  replace (S (S (String.length s)) - 1)%nat with (S (String.length (String d s) - 1))
    by (simpl; lia).
  cbn [String.get]. apply IH. discriminate.
Qed.

Lemma last_char_defined (s : string) : s <> "" -> last_char s <> None.
Proof.
  induction s as [|c s IH]; [congruence|]. intros _.
  destruct s; [discriminate | apply IH; discriminate].
Qed.

Lemma first_read (name : string) :
  name <> "" ->
  char_is "." (g_string_index name 0) = Some (begins_with_dot name).
Proof. destruct name; [congruence | reflexivity]. Qed.

Lemma last_read (name : string) :
  0 < len name < 2 ^ 64 ->
  char_is "~" (g_string_index name (gsize (len name - 1))) = Some (ends_with_tilde name).
Proof.
  intros Hlen.
  assert (Hne : name <> "") by (intros ->; unfold len in Hlen; simpl in Hlen; lia).
  unfold gsize. rewrite Z.mod_small by lia.
  unfold g_string_index.
  destruct (Z.leb_spec 0 (len name - 1)); [|lia].
  destruct (Z.ltb_spec (len name - 1) (len name)); [|lia].
  cbn [andb]. unfold len.
  replace (Z.to_nat (Z.of_nat (String.length name) - 1))
    with (String.length name - 1)%nat by lia.
  rewrite string_get_last by assumption.
  unfold ends_with_tilde, char_is.
  destruct (last_char name) eqn:Hlast; [reflexivity|].
  now apply last_char_defined in Hlast.
Qed.

(** One turn of the loop, in closed form. *)
Lemma classify_entry_closed h dd i e a :
  name_ok e ->
  classify_entry h dd i e a
  = Some {| directories :=
              (directories a ++ if listed_as_directory dd e then [i] else [])%list;
            files := (files a ++ if listed_as_file h dd e then [i] else [])%list;
            have_header := have_header a || sets_have_header h dd e;
            have_readme := have_readme a || sets_have_readme h dd e |}.
Proof.
  intros Hname.
  assert (Hne : sced_path e <> "").
  { intros Heq. unfold name_ok in Hname. rewrite Heq in Hname.
    unfold len in Hname. simpl in Hname. lia. }
  unfold classify_entry, listed_as_directory, listed_as_file, sets_have_header,
    sets_have_readme, treated_as_readme, treated_as_header, shown, hidden_by_name,
    is_directory.
  rewrite first_read, last_read by assumption.
  destruct a as [ds fs hh hr]. cbn [directories files have_header have_readme].
  destruct (sced_failed e);
    [cbn; now rewrite !app_nil_r, !orb_false_r|].
  destruct (hide_dotfiles dd), (begins_with_dot (sced_path e));
    cbn [and_then andb orb negb];
    try (cbn; now rewrite !app_nil_r, !orb_false_r);
    (destruct (hide_tildefiles dd), (ends_with_tilde (sced_path e));
     cbn [and_then andb orb negb];
     try (cbn; now rewrite !app_nil_r, !orb_false_r);
     (destruct (existsb (li_string_suffix (sced_path e)) (exclude_suffix dd));
      [cbn; now rewrite !app_nil_r, !orb_false_r|];
      destruct (existsb (li_string_prefix (sced_path e)) (exclude_prefix dd));
      [cbn; now rewrite !app_nil_r, !orb_false_r|];
      destruct (S_ISDIR (st_mode (sced_st e)));
      [destruct (hide_directories dd); cbn; now rewrite ?app_nil_r, ?orb_false_r|];
      destruct (include_header dd), (hide_header dd), (include_readme dd),
        (hide_readme dd), (g_str_equal_path h e "HEADER.txt"),
        (g_str_equal_path h e "README.txt"), (includable (sced_st e));
      cbn; rewrite ?app_nil_r, ?orb_false_r, ?orb_true_r; reflexivity)).
Qed.

Lemma classify_from_closed h dd entries :
  Forall name_ok entries ->
  forall i a,
    classify_from h dd i entries a
    = Some {| directories :=
                (directories a ++ indices_from i (listed_as_directory dd) entries)%list;
              files := (files a ++ indices_from i (listed_as_file h dd) entries)%list;
              have_header := have_header a || existsb (sets_have_header h dd) entries;
              have_readme := have_readme a || existsb (sets_have_readme h dd) entries |}.
Proof.
  induction 1 as [|e rest Hname _ IH]; intros i a.
  - destruct a. cbn. now rewrite !app_nil_r, !orb_false_r.
  - cbn [classify_from]. rewrite classify_entry_closed by assumption.
    rewrite IH. cbn [directories files have_header have_readme indices_from existsb].
    f_equal. f_equal.
    + rewrite <- app_assoc. now destruct (listed_as_directory dd e).
    + rewrite <- app_assoc. now destruct (listed_as_file h dd e).
    + now rewrite orb_assoc.
    + now rewrite orb_assoc.
Qed.

Lemma classify_closed h dd entries :
  Forall name_ok entries ->
  classify h dd entries
  = Some {| directories := indices_from 0 (listed_as_directory dd) entries;
            files := indices_from 0 (listed_as_file h dd) entries;
            have_header := existsb (sets_have_header h dd) entries;
            have_readme := existsb (sets_have_readme h dd) entries |}.
Proof.
  intros Hnames. unfold classify. now rewrite classify_from_closed.
Qed.

(** When every name is a non-empty string of a length a [gsize] holds, the
    loop over the entries is a filter: [directories] holds, in the order of
    the listing, the indices of the entries whose stat did not fail, that no
    rule on names hides and that are directories, unless directories are
    hidden; [files] those of the other entries that are neither a hidden
    header nor a hidden readme; the two flags are set when some such file
    sets them. *)
Theorem classify_is_filter h dd entries :
  Forall name_ok entries ->
  classify h dd entries
  = Some {| directories := indices_from 0 (listed_as_directory dd) entries;
            files := indices_from 0 (listed_as_file h dd) entries;
            have_header := existsb (sets_have_header h dd) entries;
            have_readme := existsb (sets_have_readme h dd) entries |}.
Proof. exact (classify_closed h dd entries). Qed.

Lemma classify_is_filter_witness :
  Forall name_ok listing_dir /\
  classify listing_server listing_data listing_dir
  = Some {| directories := indices_from 0 (listed_as_directory listing_data) listing_dir;
            files := indices_from 0 (listed_as_file listing_server listing_data) listing_dir;
            have_header := existsb (sets_have_header listing_server listing_data) listing_dir;
            have_readme := existsb (sets_have_readme listing_server listing_data) listing_dir |} /\
  indices_from 0 (listed_as_directory listing_data) listing_dir = [0%nat] /\
  indices_from 0 (listed_as_file listing_server listing_data) listing_dir = [2; 6]%nat.
Proof.
  assert (Hnames : Forall name_ok listing_dir) by (repeat constructor; unfold name_ok; cbn; lia).
  split; [exact Hnames|].
  split; [apply (classify_is_filter listing_server listing_data listing_dir Hnames)|].
  split; reflexivity.
Defined.

Lemma in_indices_from p entries :
  forall i j,
    In j (indices_from i p entries) <->
    (i <= j)%nat /\ exists e, nth_error entries (j - i) = Some e /\ p e = true.
Proof.
  induction entries as [|e rest IH]; intros i j; cbn [indices_from].
  - split; [intros [] | intros (_ & x & Hn & _)].
    destruct (j - i)%nat; discriminate.
  - assert (Hrest : In j (indices_from (S i) p rest) <->
              (i < j)%nat /\ exists x, nth_error (e :: rest) (j - i) = Some x /\ p x = true).
    { rewrite IH. split; intros (Hle & x & Hn & Hp); (split; [lia|]); exists x.
      - replace (j - i)%nat with (S (j - S i)) by lia. auto.
      - replace (j - i)%nat with (S (j - S i)) in Hn by lia. auto. }
    destruct (p e) eqn:Hpe; cbn [In]; rewrite ?Hrest; split.
    + intros [<- | (Hlt & Hx)]; [|split; [lia | exact Hx]].
      split; [lia|]. exists e. now rewrite Nat.sub_diag.
    + intros (Hle & x & Hn & Hp).
      destruct (Nat.eq_dec i j) as [-> | Hne]; [now left|].
      right. split; [lia | eauto].
    + intros (Hlt & Hx). split; [lia | exact Hx].
    + intros (Hle & x & Hn & Hp). split; [|eauto].
      destruct (Nat.eq_dec i j) as [-> | Hne]; [|lia].
      rewrite Nat.sub_diag in Hn. injection Hn as ->. congruence.
Qed.

Lemma indices_from_sorted p entries :
  forall i, StronglySorted lt (indices_from i p entries)
            /\ Forall (fun j => (i <= j < i + List.length entries)%nat)
                 (indices_from i p entries).
Proof.
  induction entries as [|e rest IH]; intros i; cbn [indices_from].
  - split; constructor.
  - destruct (IH (S i)) as [Hs Hb].
    assert (Hb' : Forall (fun j => (i <= j < i + List.length (e :: rest))%nat)
                    (indices_from (S i) p rest)).
    { eapply Forall_impl; [|exact Hb]. simpl. intros j Hj. lia. }
    destruct (p e); [|now split].
    split.
    + constructor; [exact Hs|]. eapply Forall_impl; [|exact Hb]. simpl. lia.
    + constructor; [simpl; lia | exact Hb'].
Qed.

(** The two index arrays are strictly increasing, so the rows come in the
    order of the listing and none twice; every index is one of the listing;
    no index is in both arrays. *)
Theorem classified_in_listing_order h dd entries r :
  Forall name_ok entries ->
  classify h dd entries = Some r ->
  StronglySorted lt (directories r) /\ StronglySorted lt (files r) /\
  Forall (fun j => (j < List.length entries)%nat) (directories r ++ files r) /\
  (forall j, In j (directories r) -> ~ In j (files r)).
Proof.
  intros Hnames Hc. rewrite classify_closed in Hc by assumption.
  injection Hc as <-. cbn [directories files].
  destruct (indices_from_sorted (listed_as_directory dd) entries 0) as [Hds Hdb].
  destruct (indices_from_sorted (listed_as_file h dd) entries 0) as [Hfs Hfb].
  repeat split; try assumption.
  - apply Forall_app. split; (eapply Forall_impl; [|eassumption]); simpl; lia.
  - intros j Hd Hf.
    apply in_indices_from in Hd, Hf.
    destruct Hd as (_ & e & Hn & Hd), Hf as (_ & e' & Hn' & Hf).
    rewrite Hn in Hn'. injection Hn' as <-.
    unfold listed_as_directory, listed_as_file in *.
    destruct (shown dd e), (is_directory e); discriminate.
Qed.

Lemma classified_in_listing_order_witness :
  Forall name_ok listing_dir /\
  classify listing_server listing_data listing_dir = Some listing_classified /\
  StronglySorted lt (directories listing_classified) /\
  StronglySorted lt (files listing_classified) /\
  Forall (fun j => (j < List.length listing_dir)%nat)
    (directories listing_classified ++ files listing_classified) /\
  (forall j, In j (directories listing_classified) -> ~ In j (files listing_classified)).
Proof.
  assert (Hnames : Forall name_ok listing_dir) by (repeat constructor; unfold name_ok; cbn; lia).
  split; [exact Hnames|]. split; [reflexivity|].
  apply (classified_in_listing_order listing_server listing_data listing_dir
           listing_classified Hnames).
  reflexivity.
Defined.

(** An entry is listed as a directory, or as a file, exactly when the
    rules say so: no visible entry is left out and no other is listed. *)
Theorem listed_iff_visible h dd entries r i e :
  Forall name_ok entries ->
  classify h dd entries = Some r ->
  nth_error entries i = Some e ->
  (In i (directories r) <-> listed_as_directory dd e = true) /\
  (In i (files r) <-> listed_as_file h dd e = true).
Proof.
  intros Hnames Hc Hn. rewrite classify_closed in Hc by assumption.
  injection Hc as <-. cbn [directories files].
  rewrite !in_indices_from, Nat.sub_0_r.
  split; (split; [intros (_ & x & Hx & Hp); congruence
                 | intros Hp; split; [lia | eauto]]).
Qed.

Lemma listed_iff_visible_witness :
  Forall name_ok listing_dir /\
  classify listing_server listing_data listing_dir = Some listing_classified /\
  nth_error listing_dir 6 = Some (entry "b&w.png" regular 2048) /\
  (In 6%nat (directories listing_classified)
   <-> listed_as_directory listing_data (entry "b&w.png" regular 2048) = true) /\
  (In 6%nat (files listing_classified)
   <-> listed_as_file listing_server listing_data (entry "b&w.png" regular 2048) = true).
Proof.
  assert (Hnames : Forall name_ok listing_dir) by (repeat constructor; unfold name_ok; cbn; lia).
  split; [exact Hnames|]. split; [reflexivity|]. split; [reflexivity|].
  apply (listed_iff_visible listing_server listing_data listing_dir listing_classified
           6 (entry "b&w.png" regular 2048) Hnames); reflexivity.
Defined.

(** An entry whose name begins with a dot while dot files are hidden, ends
    with a tilde while tilde files are hidden, or ends or begins with one of
    the excluded strings is in neither array, directory or not. *)
Theorem hidden_names_are_not_listed h dd entries r i e :
  Forall name_ok entries ->
  classify h dd entries = Some r ->
  nth_error entries i = Some e ->
  hidden_by_name dd (sced_path e) = true ->
  ~ In i (directories r) /\ ~ In i (files r).
Proof.
  intros Hnames Hc Hn Hhidden.
  rewrite classify_closed in Hc by assumption.
  injection Hc as <-. cbn [directories files].
  rewrite !in_indices_from, Nat.sub_0_r.
  split; intros (_ & x & Hx & Hp); rewrite Hn in Hx; injection Hx as <-;
    unfold listed_as_directory, listed_as_file, shown in Hp;
    rewrite Hhidden in Hp; destruct (sced_failed e); discriminate.
Qed.

Lemma hidden_names_are_not_listed_witness :
  Forall name_ok listing_dir /\
  classify listing_server listing_data listing_dir = Some listing_classified /\
  nth_error listing_dir 4 = Some (entry "old.bak" regular 7) /\
  hidden_by_name listing_data (sced_path (entry "old.bak" regular 7)) = true /\
  ~ In 4%nat (directories listing_classified) /\ ~ In 4%nat (files listing_classified).
Proof.
  assert (Hnames : Forall name_ok listing_dir) by (repeat constructor; unfold name_ok; cbn; lia).
  split; [exact Hnames|]. split; [reflexivity|]. split; [reflexivity|].
  split; [reflexivity|].
  apply (hidden_names_are_not_listed listing_server listing_data listing_dir
           listing_classified 4 (entry "old.bak" regular 7) Hnames); reflexivity.
Defined.

(** ** More on dirlist_create *)

Ltac split_key k :=
  repeat match goal with
         | |- context [String.eqb k ?lit] =>
             destruct (String.eqb_spec k lit) as [-> | ?]
         | H : context [String.eqb k ?lit] |- _ =>
             destruct (String.eqb_spec k lit) as [-> | ?]
         end.

Lemma dirlist_create_option_rejected wild o data :
  rejected (dirlist_create_option wild o data) = negb (option_ok o).
Proof.
  unfold dirlist_create_option, option_ok, expect_boolean.
  destruct o as [| | | |[|[| | |k|] [|v [|]]]]; try reflexivity.
  cbn [key_in string_keys list_keys boolean_options map fst existsb].
  split_key k; cbn; try reflexivity;
    destruct v; cbn; try reflexivity;
    rewrite add_strings_accepts; reflexivity.
Qed.

Lemma dirlist_create_rejected wild options :
  rejected (dirlist_create wild (Some (value_list options)))
  = negb (forallb option_ok options).
Proof.
  unfold dirlist_create. cbn [type type_eqb negb data_list].
  generalize default_data.
  induction options as [|o rest IH]; intros data; [reflexivity|].
  cbn [dirlist_create_options forallb].
  pose proof (dirlist_create_option_rejected wild o data) as Hstep.
  destruct (dirlist_create_option wild o data) as [m | data'];
    cbn [rejected] in Hstep |- *.
  - apply (f_equal negb) in Hstep. rewrite negb_involutive in Hstep.
    now rewrite <- Hstep.
  - apply (f_equal negb) in Hstep. rewrite negb_involutive in Hstep.
    rewrite <- Hstep. cbn [andb negb]. apply IH.
Qed.

(** For options whose keys are C strings and whose lists hold strings: the
    list of options is rejected exactly when one of them is not a pair of a
    known key and a value of the type of that key. *)
Theorem dirlist_create_accepts_iff wild options :
  forallb plain_option options = true ->
  rejected (dirlist_create wild (Some (value_list options)))
  = negb (forallb option_ok options).
Proof. intros _. apply dirlist_create_rejected. Qed.

Lemma dirlist_create_accepts_iff_witness :
  forallb plain_option sample_options = true /\
  rejected (dirlist_create no_pun (Some (value_list sample_options)))
  = negb (forallb option_ok sample_options) /\
  forallb plain_option
    (sample_options ++ [key_value "hide-suffix" (value_list [value_string ".bak"])]) = true /\
  rejected (dirlist_create no_pun
    (Some (value_list
       (sample_options ++ [key_value "hide-suffix" (value_list [value_string ".bak"])]))))
  = true.
Proof.
  split; [reflexivity|].
  split; [apply (dirlist_create_accepts_iff no_pun sample_options); reflexivity|].
  split; [reflexivity|].
  rewrite (dirlist_create_accepts_iff no_pun
             (sample_options ++ [key_value "hide-suffix" (value_list [value_string ".bak"])]));
    reflexivity.
Defined.

(** A member of the configuration that every option changes by [step]
    ends as the fold of [step] over the options. *)
Lemma fold_member {A} wild (get : dirlist_data -> A) (step : A -> liValue -> A) :
  (forall o d d', dirlist_create_option wild o d = inr d' -> get d' = step (get d) o) ->
  forall options d d',
    dirlist_create_options wild options d = inr d' ->
    get d' = fold_left step options (get d).
Proof.
  intros Hstep. induction options as [|o rest IH]; intros d d'; cbn.
  - now intros [= <-].
  - destruct (dirlist_create_option wild o d) as [m | d1] eqn:Ho; [discriminate|].
    intros Hrest. rewrite (IH _ _ Hrest). f_equal. now apply Hstep.
Qed.

Ltac member_step :=
  let o := fresh "o" in
  let d := fresh "d" in
  let d' := fresh "d'" in
  let k := fresh "k" in
  let v := fresh "v" in
  intros o d d';
  unfold dirlist_create_option, expect_boolean;
  destruct o as [| | | |[|[| | |k|] [|v [|]]]]; try discriminate;
  split_key k; cbn;
  destruct v; cbn; try discriminate;
  rewrite ?add_strings_accepts;
  intros [= <-]; try reflexivity.

(** In an accepted configuration each of the ten boolean members has the
    value of the last option with its key, and its default when no option
    has that key. *)
Theorem boolean_options_last_win wild options data :
  dirlist_create wild (Some (value_list options)) = inr data ->
  Forall (fun kf => snd kf data = last_boolean (fst kf) options (snd kf default_data))
    boolean_options.
Proof.
  unfold dirlist_create. cbn [type type_eqb negb data_list]. intros Hrun.
  repeat constructor; cbn [fst snd]; unfold last_boolean;
    (eapply (fold_member wild); [|exact Hrun]); member_step.
Qed.

Lemma boolean_options_last_win_witness :
  dirlist_create no_pun (Some (value_list sample_options)) = inr sample_data /\
  Forall (fun kf => snd kf sample_data
                    = last_boolean (fst kf) sample_options (snd kf default_data))
    boolean_options /\
  hide_dotfiles sample_data = true.
Proof.
  split; [reflexivity|]. split; [|reflexivity].
  apply (boolean_options_last_win no_pun sample_options sample_data). reflexivity.
Defined.

(** In an accepted configuration [css] is the string of the last css
    option; without one there is no css and the built-in style sheet is
    used. *)
Theorem css_option_last_wins wild options data :
  dirlist_create wild (Some (value_list options)) = inr data ->
  css data = last_string "css" options None.
Proof.
  unfold dirlist_create. cbn [type type_eqb negb data_list]. intros Hrun.
  unfold last_string.
  change (@None string) with (css default_data).
  eapply (fold_member wild); [|exact Hrun]. member_step.
Qed.

Lemma css_option_last_wins_witness :
  dirlist_create no_pun (Some (value_list sample_options)) = inr sample_data /\
  css sample_data = last_string "css" sample_options None /\
  css sample_data = Some "/style.css".
Proof.
  split; [reflexivity|]. split; [|reflexivity].
  apply (css_option_last_wins no_pun sample_options sample_data). reflexivity.
Defined.

Lemma fold_left_app_flat_map {A B} (f : A -> list B) (l : list A) (init : list B) :
  fold_left (fun acc x => (acc ++ f x)%list) l init = (init ++ flat_map f l)%list.
Proof.
  revert init. induction l as [|x l IH]; intros init; cbn.
  - now rewrite app_nil_r.
  - now rewrite IH, app_assoc.
Qed.

Lemma map_flat_map {A B C} (g : B -> C) (f : A -> list B) (l : list A) :
  flat_map (fun x => map g (f x)) l = map g (flat_map f l).
Proof.
  induction l as [|x l IH]; cbn; [reflexivity|]. now rewrite IH, map_app.
Qed.

(** Several options for exclude-suffix, or for exclude-prefix, add up: the
    array holds the elements of all their lists, in the order given.  A
    later list does not replace an earlier one. *)
Theorem exclude_lists_add_up wild options data :
  dirlist_create wild (Some (value_list options)) = inr data ->
  exclude_suffix data = map (data_string wild) (all_elements "exclude-suffix" options) /\
  exclude_prefix data = map (data_string wild) (all_elements "exclude-prefix" options).
Proof.
  unfold dirlist_create. cbn [type type_eqb negb data_list]. intros Hrun.
  unfold all_elements. split.
  - rewrite (fold_member wild exclude_suffix
               (fun acc o =>
                  (acc ++ map (data_string wild)
                            match o with
                            | value_list [value_string k; value_list l] =>
                                if String.eqb k "exclude-suffix" then l else []
                            | _ => []
                            end)%list) ltac:(member_step; now rewrite ?app_nil_r)
               _ _ _ Hrun).
    rewrite fold_left_app_flat_map. cbn [exclude_suffix default_data app].
    apply map_flat_map.
  - rewrite (fold_member wild exclude_prefix
               (fun acc o =>
                  (acc ++ map (data_string wild)
                            match o with
                            | value_list [value_string k; value_list l] =>
                                if String.eqb k "exclude-prefix" then l else []
                            | _ => []
                            end)%list) ltac:(member_step; now rewrite ?app_nil_r)
               _ _ _ Hrun).
    rewrite fold_left_app_flat_map. cbn [exclude_prefix default_data app].
    apply map_flat_map.
Qed.

Lemma exclude_lists_add_up_witness :
  dirlist_create no_pun (Some (value_list sample_options)) = inr sample_data /\
  exclude_suffix sample_data
  = map (data_string no_pun) (all_elements "exclude-suffix" sample_options) /\
  exclude_prefix sample_data
  = map (data_string no_pun) (all_elements "exclude-prefix" sample_options) /\
  exclude_suffix sample_data = [".bak"; ".tmp"; ".old"].
Proof.
  split; [reflexivity|].
  destruct (exclude_lists_add_up no_pun sample_options sample_data eq_refl)
    as [Hsuffix Hprefix].
  split; [exact Hsuffix|]. split; [exact Hprefix | reflexivity].
Defined.

(** A sort option with a string value changes nothing: the configuration is
    the one the other options give, accepted or not. *)
Theorem sort_option_is_ignored wild before s after :
  dirlist_create wild
    (Some (value_list (before ++ key_value "sort" (value_string s) :: after)))
  = dirlist_create wild (Some (value_list (before ++ after))).
Proof.
  unfold dirlist_create. cbn [type type_eqb negb data_list].
  generalize default_data.
  induction before as [|o before IH]; intros data; cbn [app dirlist_create_options].
  - reflexivity.
  - destruct (dirlist_create_option wild o data); [reflexivity | apply IH].
Qed.

(** ** Chunks and the document *)

Lemma text_of_app (o1 o2 : list chunk) : text_of (o1 ++ o2) = text_of o1 ++ text_of o2.
Proof.
  induction o1 as [|[s|f a b] o1 IH]; cbn; [reflexivity| |exact IH].
  now rewrite IH, append_assoc.
Qed.

Lemma len_nonneg (s : string) : 0 <= len s.
Proof. unfold len. lia. Qed.

(** The three things a call of [try_append_file] can do. *)
Lemma try_append_file_cases h p o buf name enc :
  try_append_file h p o buf name enc = (o, buf)
  \/ (enc = true /\ exists c,
        read_file h (li_path_append_slash p ++ name) = Some c /\
        try_append_file h p o buf name enc
        = (o, buf ++ "<pre>" ++ li_string_encode c LI_ENCODING_HTML ++ "</pre>"))
  \/ (enc = false /\ exists c,
        read_file h (li_path_append_slash p ++ name) = Some c /\
        len c <= MAX_INCLUDE_FILE_SIZE /\
        try_append_file h p o buf name enc
        = ((o ++ [STRING_CHUNK buf; FILE_CHUNK (li_path_append_slash p ++ name) 0 (len c)])%list,
           "")).
Proof.
  unfold try_append_file.
  destruct enc; cbn [negb];
    (destruct (read_file h (li_path_append_slash p ++ name)) as [c|]; [|now left]);
    (destruct (Z.gtb_spec (len c) MAX_INCLUDE_FILE_SIZE); [now left|]).
  - right. left. eauto.
  - right. right. split; [reflexivity|]. exists c. auto.
Qed.

(** A call of [try_append_file] only adds: the chunk queue keeps its chunks
    and gets new ones behind them, of which a file chunk starts at 0 and is
    at most 64 KiB long; the text written so far, queued or in the buffer,
    stays as it is and in its order.  With [encode_html] nothing is queued;
    without it no text is added. *)
Theorem try_append_file_appends h p o buf name enc :
  (exists new,
     fst (try_append_file h p o buf name enc) = (o ++ new)%list /\
     Forall small_file new /\ (enc = true -> new = [])) /\
  (exists added,
     text_of (fst (try_append_file h p o buf name enc))
     ++ snd (try_append_file h p o buf name enc)
     = (text_of o ++ buf) ++ added /\
     (enc = false -> added = "")).
Proof.
  destruct (try_append_file_cases h p o buf name enc)
    as [-> | [(Henc & c & _ & ->) | (Henc & c & _ & Hsize & ->)]]; cbn [fst snd].
  - split.
    + exists []. rewrite app_nil_r. auto.
    + exists "". now rewrite append_empty_r.
  - split.
    + exists []. rewrite app_nil_r. auto.
    + eexists. split; [now rewrite <- append_assoc | congruence].
  - split.
    + eexists. split; [reflexivity|]. split; [|congruence].
      repeat constructor. apply len_nonneg. exact Hsize.
    + exists "". rewrite text_of_app. cbn [text_of].
      now rewrite !append_empty_r.
Qed.

(** A call of [try_append_file] either keeps the buffer and adds to it, or
    queues the buffer with a file behind it and starts an empty one. *)
Lemma try_append_file_buffer h p o buf name enc :
  (exists added,
     try_append_file h p o buf name enc = (o, buf ++ added))
  \/ (enc = false /\ exists f n,
        0 <= n <= MAX_INCLUDE_FILE_SIZE /\
        try_append_file h p o buf name enc
        = ((o ++ [STRING_CHUNK buf; FILE_CHUNK f 0 n])%list, "")).
Proof.
  destruct (try_append_file_cases h p o buf name enc)
    as [-> | [(Henc & c & _ & ->) | (Henc & c & _ & Hsize & ->)]].
  - left. exists "". now rewrite append_empty_r.
  - left. eauto.
  - right. split; [exact Henc|]. do 2 eexists. split; [|reflexivity].
    split; [apply len_nonneg | exact Hsize].
Qed.

Lemma some_injective {A} (x y : A) : Some x = Some y -> x = y.
Proof. congruence. Qed.

Lemma render_shape h dd vr sce a vr' :
  render h dd vr sce a = Some vr' ->
  exists dirs fls new doc,
    (if negb (hide_directories dd)
     then rows (directory_row h) (sce_dirlist sce) (directories a)
     else Some "") = Some dirs /\
    rows (file_row h) (sce_dirlist sce) (files a) = Some fls /\
    vr' = set_out (out vr ++ new ++ [STRING_CHUNK doc]) vr /\
    Forall small_file new /\ (List.length new <= 4)%nat /\
    (encode_header dd = true -> new = []) /\
    (exists z, doc = z ++ html_footer (server_tag h)) /\
    (exists w, text_of (new ++ [STRING_CHUNK doc]) = html_header_start (uri_path vr) ++ w) /\
    (exists x y, In (STRING_CHUNK (x ++ table_text vr dirs fls ++ y))
                   (new ++ [STRING_CHUNK doc])).
Proof.
  unfold render, table_text. fold parent_row.
  set (css_text := match css dd with Some url => _ | None => _ end).
  destruct (try_append_file_buffer h (physical_path vr) (out vr)
              ((html_header_start (uri_path vr) ++ css_text) ++ html_header_end)
              "HEADER.txt" (encode_header dd))
    as [(add1 & ->) | (Henc1 & f1 & n1 & Hn1 & ->)];
    (destruct (if negb (hide_directories dd) then _ else _) as [dirs|]; [|discriminate]);
    (destruct (rows (file_row h) (sce_dirlist sce) (files a)) as [fls|]; [|discriminate]);
    match goal with
    | |- context [try_append_file h ?p ?o ?buf "README.txt" ?enc] =>
        destruct (try_append_file_buffer h p o buf "README.txt" enc)
          as [(add2 & ->) | (Henc2 & f2 & n2 & Hn2 & ->)]
    end;
    intros Hvr; apply some_injective in Hvr; subst vr'; exists dirs, fls;
    lazymatch goal with
    | |- context [set_out ((out vr ++ ?l1) ++ ?l2 ++ [STRING_CHUNK ?d])%list vr = _] =>
        exists (l1 ++ l2)%list, d
    | |- context [set_out (((out vr ++ ?l1) ++ ?l2) ++ [STRING_CHUNK ?d])%list vr = _] =>
        exists (l1 ++ l2)%list, d
    | |- context [set_out ((out vr ++ ?l1) ++ [STRING_CHUNK ?d])%list vr = _] =>
        exists l1, d
    | |- context [set_out (out vr ++ [STRING_CHUNK ?d])%list vr = _] =>
        exists (@nil chunk), d
    end; cbn [app].
  -
    split; [reflexivity|]. split; [reflexivity|]. split; [reflexivity|].
    split; [constructor|]. split; [cbn; lia|]. split; [reflexivity|].
    split; [eexists; reflexivity|].
    split; [cbn [app text_of]; rewrite !append_assoc; eexists; reflexivity|].
    exists ((html_header_start (uri_path vr) ++ css_text) ++ html_header_end ++ add1),
      (add2 ++ html_footer (server_tag h)).
    left. f_equal. rewrite !append_assoc. reflexivity.
  -
    split; [reflexivity|]. split; [reflexivity|].
    split; [rewrite <- app_assoc; reflexivity|].
    split; [repeat constructor; lia|]. split; [cbn; lia|]. split; [congruence|].
    split; [eexists; reflexivity|].
    split; [cbn [app text_of]; rewrite !append_assoc; eexists; reflexivity|].
    exists ((html_header_start (uri_path vr) ++ css_text) ++ html_header_end ++ add1), "".
    left. f_equal. rewrite !append_assoc, append_empty_r. reflexivity.
  -
    split; [reflexivity|]. split; [reflexivity|].
    split; [rewrite <- app_assoc; reflexivity|].
    split; [repeat constructor; lia|]. split; [cbn; lia|]. split; [congruence|].
    split; [eexists; reflexivity|].
    split; [cbn [app text_of]; rewrite !append_assoc; eexists; reflexivity|].
    exists "", (add2 ++ html_footer (server_tag h)).
    right. right. left. f_equal. rewrite !append_assoc. reflexivity.
  -
    split; [reflexivity|]. split; [reflexivity|].
    split; [rewrite <- !app_assoc; reflexivity|].
    split; [repeat constructor; lia|]. split; [cbn; lia|]. split; [congruence|].
    split; [eexists; reflexivity|].
    split; [cbn [app text_of]; rewrite !append_assoc; eexists; reflexivity|].
    exists "", "".
    right. right. left. f_equal. rewrite !append_assoc, append_empty_r. reflexivity.
Qed.



Lemma contains_head (s y : string) : contains s (s ++ y) = true.
Proof. rewrite contains_unfold. now rewrite prefix_refl_append. Qed.

Lemma rows_contain row entries indices :
  forall t j e,
    rows row entries indices = Some t ->
    In j indices -> nth_error entries j = Some e ->
    contains (row e) t = true.
Proof.
  induction indices as [|idx indices IH]; intros t j e; cbn [rows]; [intros _ []|].
  destruct (nth_error entries idx) as [sced|] eqn:Hidx; [|discriminate].
  destruct (rows row entries indices) as [rest|]; [|discriminate].
  intros Ht [-> | Hin] Hj; apply some_injective in Ht; subst t.
  - rewrite Hidx in Hj. apply some_injective in Hj. subst sced. apply contains_head.
  - apply contains_append_r. eapply IH; eauto.
Qed.

Lemma output_contains_in (s t : string) (o : list chunk) :
  In (STRING_CHUNK t) o -> contains s t = true -> output_contains s o = true.
Proof.
  intros Hin Hs. unfold output_contains. apply existsb_exists.
  exists (STRING_CHUNK t). auto.
Qed.

Lemma render_rows h dd vr sce a vr' :
  render h dd vr sce a = Some vr' ->
  output_contains parent_row (out vr') = true /\
  (forall j e, In j (files a) -> nth_error (sce_dirlist sce) j = Some e ->
     output_contains (file_row h e) (out vr') = true) /\
  (hide_directories dd = false ->
   forall j e, In j (directories a) -> nth_error (sce_dirlist sce) j = Some e ->
     output_contains (directory_row h e) (out vr') = true).
Proof.
  intros Hr.
  destruct (render_shape _ _ _ _ _ _ Hr)
    as (dirs & fls & new & doc & Hdirs & Hfls & -> & _ & _ & _ & _ & _ & x & y & Hin).
  cbn [out set_out].
  assert (Hchunk : forall s, contains s (table_text vr dirs fls) = true ->
            output_contains s (out vr ++ new ++ [STRING_CHUNK doc]) = true).
  { intros s Hs. eapply output_contains_in.
    - apply in_or_app. right. exact Hin.
    - apply contains_append_r, contains_append_l, Hs. }
  unfold table_text in Hchunk.
  split; [|split].
  - apply Hchunk, contains_append_r, contains_head.
  - intros j e Hj He. apply Hchunk.
    do 3 apply contains_append_r. apply contains_append_l.
    eapply rows_contain; eauto.
  - intros Hhide j e Hj He. apply Hchunk.
    rewrite Hhide in Hdirs. cbn [negb] in Hdirs.
    do 2 apply contains_append_r. apply contains_append_l.
    eapply rows_contain; eauto.
Qed.

(** The rendered document has the row of the parent directory, the row of
    every entry in [files] and, unless directories are hidden, the row of
    every entry in [directories], each whole within one string chunk. *)
Theorem classified_entries_have_rows h dd vr sce a vr' :
  render h dd vr sce a = Some vr' ->
  output_contains parent_row (out vr') = true /\
  (forall j e, In j (files a) -> nth_error (sce_dirlist sce) j = Some e ->
     output_contains (file_row h e) (out vr') = true) /\
  (hide_directories dd = false ->
   forall j e, In j (directories a) -> nth_error (sce_dirlist sce) j = Some e ->
     output_contains (directory_row h e) (out vr') = true).
Proof. exact (render_rows h dd vr sce a vr'). Qed.

Lemma classified_entries_have_rows_witness :
  render listing_server listing_data listing_request (www listing_dir) listing_classified
  = Some listing_rendered /\
  output_contains parent_row (out listing_rendered) = true /\
  output_contains (file_row listing_server (entry "b&w.png" regular 2048))
    (out listing_rendered) = true.
Proof.
  assert (Hr : render listing_server listing_data listing_request (www listing_dir)
                 listing_classified = Some listing_rendered)
    by (vm_compute; reflexivity).
  split; [exact Hr|].
  destruct (classified_entries_have_rows listing_server listing_data listing_request
              (www listing_dir) listing_classified listing_rendered Hr)
    as (Hparent & Hfiles & _).
  split; [exact Hparent|].
  apply (Hfiles 6%nat); [right; left; reflexivity | reflexivity].
Defined.

Lemma render_defined h dd vr sce a :
  (forall j, In j (directories a ++ files a) ->
     exists e, nth_error (sce_dirlist sce) j = Some e) ->
  exists vr', render h dd vr sce a = Some vr'.
Proof.
  intros Hidx. unfold render.
  destruct (rows_of_entries (fun _ => True) (directory_row h) (sce_dirlist sce)
              (directories a)) as (ds & Hds & _).
  { intros j Hj. destruct (Hidx j) as [e He]; [apply in_or_app; now left | eauto]. }
  destruct (rows_of_entries (fun _ => True) (file_row h) (sce_dirlist sce)
              (files a)) as (fs & Hfs & _).
  { intros j Hj. destruct (Hidx j) as [e He]; [apply in_or_app; now right | eauto]. }
  rewrite Hds, Hfs.
  destruct (try_append_file h (physical_path vr) (out vr) _ "HEADER.txt" _) as [o1 b1].
  destruct (negb (hide_directories dd));
    match goal with
    | |- context [try_append_file h ?p ?o ?buf "README.txt" ?enc] =>
        destruct (try_append_file h p o buf "README.txt" enc) as [o2 b2]
    end; eauto.
Qed.

(** ** The whole call *)

Lemma li_etag_set_header_frame h vr st vr1 c :
  li_etag_set_header h vr st = (vr1, c) ->
  http_method vr1 = http_method vr /\ handled vr1 = handled vr /\
  physical_path vr1 = physical_path vr /\ uri_path vr1 = uri_path vr /\
  http_status vr1 = http_status vr /\ out vr1 = out vr.
Proof.
  unfold li_etag_set_header. destruct (li_etag h vr st) as [tag c'].
  intros H. apply (f_equal fst) in H. cbn [fst] in H. subst vr1. repeat split.
Qed.

(** The call on the path that renders, as the two steps it is made of. *)
Lemma dirlist_renders h dd vr sce vr1 :
  http_method vr = LI_HTTP_METHOD_GET \/ http_method vr = LI_HTTP_METHOD_HEAD ->
  handled vr = false ->
  physical_path vr <> "" ->
  li_stat_cache_get_dirlist h (physical_path vr) = LOOKUP_GO_ON sce ->
  sced_failed (sce_data sce) = false ->
  S_ISDIR (st_mode (sced_st (sce_data sce))) = true ->
  ends_in_slash (uri_path vr) = true ->
  li_etag_set_header h (claimed_200 dd vr) (sced_st (sce_data sce)) = (vr1, false) ->
  dirlist h dd vr
  = (a <- classify h dd (sce_dirlist sce) ;;
     vr' <- render h dd vr1 sce a ;;
     Some (LI_HANDLER_GO_ON, vr')).
Proof.
  intros Hmethod Hhandled Hpath Hlookup Hfailed Hdir Hslash Hetag.
  unfold dirlist.
  assert (Hlen : (len (physical_path vr) =? 0)%Z = false).
  { apply Z.eqb_neq. pose proof (len_positive _ Hpath). lia. }
  rewrite Hhandled, Hlen, Hlookup, Hfailed, Hdir, Hslash,
    (ends_in_slash_nonempty _ Hslash).
  unfold li_vrequest_handle_direct. rewrite Hhandled.
  unfold claimed_200 in Hetag. cbv beta iota zeta in Hetag |- *.
  rewrite Hetag.
  destruct Hmethod as [-> | ->]; reflexivity.
Qed.

(** End to end.  For a GET or HEAD request that is not handled yet, on a
    directory whose stat succeeded, with a path that ends in a slash and a
    client without a fresh copy, and a listing whose names are non-empty
    strings: [dirlist] returns [LI_HANDLER_GO_ON] with status 200, the
    response claimed, and a document that has the parent row, a file row
    for every entry the rules list as a file and a directory row for every
    entry they list as a directory. *)
Theorem dirlist_lists_visible_entries h dd vr sce vr1 :
  http_method vr = LI_HTTP_METHOD_GET \/ http_method vr = LI_HTTP_METHOD_HEAD ->
  handled vr = false ->
  physical_path vr <> "" ->
  li_stat_cache_get_dirlist h (physical_path vr) = LOOKUP_GO_ON sce ->
  sced_failed (sce_data sce) = false ->
  S_ISDIR (st_mode (sced_st (sce_data sce))) = true ->
  ends_in_slash (uri_path vr) = true ->
  li_etag_set_header h (claimed_200 dd vr) (sced_st (sce_data sce)) = (vr1, false) ->
  Forall name_ok (sce_dirlist sce) ->
  exists vr',
    dirlist h dd vr = Some (LI_HANDLER_GO_ON, vr') /\
    http_status vr' = 200 /\ handled vr' = true /\
    output_contains parent_row (out vr') = true /\
    forall i e,
      nth_error (sce_dirlist sce) i = Some e ->
      (listed_as_file h dd e = true ->
       output_contains (file_row h e) (out vr') = true) /\
      (listed_as_directory dd e = true ->
       output_contains (directory_row h e) (out vr') = true).
Proof.
  intros Hmethod Hhandled Hpath Hlookup Hfailed Hdir Hslash Hetag Hnames.
  rewrite (dirlist_renders _ _ _ _ _ Hmethod Hhandled Hpath Hlookup Hfailed Hdir
             Hslash Hetag).
  rewrite classify_closed by assumption.
  set (a := {| directories := _; files := _; have_header := _; have_readme := _ |}).
  destruct (render_defined h dd vr1 sce a) as [vr' Hr].
  { intros j Hj. apply in_app_or in Hj. subst a. cbn [directories files] in Hj.
    destruct Hj as [Hj | Hj]; apply in_indices_from in Hj;
      destruct Hj as (_ & e & He & _); rewrite Nat.sub_0_r in He; eauto. }
  rewrite Hr. exists vr'. split; [reflexivity|].
  destruct (li_etag_set_header_frame _ _ _ _ _ Hetag)
    as (_ & Hh1 & _ & _ & Hs1 & _).
  destruct (render_shape _ _ _ _ _ _ Hr)
    as (_ & _ & new & doc & _ & _ & Hvr & _).
  destruct (render_rows _ _ _ _ _ _ Hr) as (Hparent & Hfiles & Hdirs).
  split; [subst vr'; exact Hs1|]. split; [subst vr'; exact Hh1|].
  split; [exact Hparent|].
  intros i e He. split; intros Hlisted.
  - apply (Hfiles i e); [|exact He].
    subst a. cbn [files]. apply in_indices_from. rewrite Nat.sub_0_r.
    split; [lia | eauto].
  - apply (Hdirs) with (j := i); [| |exact He].
    + unfold listed_as_directory in Hlisted.
      destruct (hide_directories dd); [|reflexivity].
      now rewrite andb_false_r in Hlisted.
    + subst a. cbn [directories]. apply in_indices_from. rewrite Nat.sub_0_r.
      split; [lia | eauto].
Qed.

Lemma dirlist_lists_visible_entries_witness :
  li_etag_set_header listing_server (claimed_200 listing_data request)
    (sced_st (sce_data (www listing_dir))) = (listing_request, false) /\
  Forall name_ok (sce_dirlist (www listing_dir)) /\
  exists vr',
    dirlist listing_server listing_data request = Some (LI_HANDLER_GO_ON, vr') /\
    http_status vr' = 200 /\ handled vr' = true /\
    output_contains parent_row (out vr') = true /\
    forall i e,
      nth_error (sce_dirlist (www listing_dir)) i = Some e ->
      (listed_as_file listing_server listing_data e = true ->
       output_contains (file_row listing_server e) (out vr') = true) /\
      (listed_as_directory listing_data e = true ->
       output_contains (directory_row listing_server e) (out vr') = true).
Proof.
  assert (Hnames : Forall name_ok (sce_dirlist (www listing_dir)))
    by (repeat constructor; unfold name_ok; cbn; lia).
  split; [reflexivity|]. split; [exact Hnames|].
  apply (dirlist_lists_visible_entries listing_server listing_data request
           (www listing_dir) listing_request);
    try reflexivity; try exact Hnames.
  - left; reflexivity.
  - discriminate.
Defined.

Ltac request_unchanged :=
  let H := fresh in
  intros H; apply some_injective in H;
  apply (f_equal snd) in H; cbn [snd] in H; subst;
  solve [repeat split; auto].

(** What a call of [dirlist] can do to the request.  It never changes the
    method or the two paths.  When it returns [LI_HANDLER_WAIT_FOR_EVENT] or
    [LI_HANDLER_ERROR] the request is as before, so the call can be made
    again.  Otherwise the request is as before, or it is claimed with
    status 403, or redirected, or claimed with status 304 and the chunk
    queue as before, or claimed with status 200 and chunks appended to the
    queue, the file chunks among them starting at 0 and at most 64 KiB
    long. *)
Theorem dirlist_outcomes h dd vr res vr' :
  dirlist h dd vr = Some (res, vr') ->
  (http_method vr' = http_method vr /\ physical_path vr' = physical_path vr /\
   uri_path vr' = uri_path vr) /\
  (res = LI_HANDLER_WAIT_FOR_EVENT \/ res = LI_HANDLER_ERROR -> vr' = vr) /\
  (vr' = vr
   \/ (res = LI_HANDLER_GO_ON /\ vr' = set_http_status 403 (set_handled vr))
   \/ (res = LI_HANDLER_GO_ON /\ vr' = li_vrequest_redirect_directory vr)
   \/ (res = LI_HANDLER_GO_ON /\ http_status vr' = 304 /\ handled vr' = true /\
       out vr' = out vr)
   \/ (res = LI_HANDLER_GO_ON /\ http_status vr' = 200 /\ handled vr' = true /\
       exists new doc,
         out vr' = (out vr ++ new ++ [STRING_CHUNK doc])%list /\ Forall small_file new)).
Proof.
  unfold dirlist.
  assert (Hgo : forall v, Some (LI_HANDLER_GO_ON, v) = Some (res, vr') ->
            res = LI_HANDLER_GO_ON /\ vr' = v).
  { intros v H. apply some_injective in H.
    split; [exact (eq_sym (f_equal fst H)) | exact (eq_sym (f_equal snd H))]. }
  assert (Hnot : forall A : Prop,
            LI_HANDLER_GO_ON = LI_HANDLER_WAIT_FOR_EVENT
            \/ LI_HANDLER_GO_ON = LI_HANDLER_ERROR -> A).
  { intros A [H | H]; discriminate H. }
  set (m := http_method vr) at 1. clearbody m.
  destruct m; try request_unchanged;
    (destruct (handled vr) eqn:Hhandled; [request_unchanged|];
     destruct (len (physical_path vr) =? 0)%Z; [request_unchanged|];
     destruct (li_stat_cache_get_dirlist h (physical_path vr)) as [sce| |];
     try request_unchanged;
     destruct (sced_failed (sce_data sce));
     [ destruct ((sced_err (sce_data sce) =? ENOENT)%Z
                 || (sced_err (sce_data sce) =? ENOTDIR)%Z)%bool; [request_unchanged|];
       destruct (sced_err (sce_data sce) =? EACCES)%Z; [|request_unchanged];
       unfold li_vrequest_handle_direct; rewrite Hhandled;
       intros H; apply Hgo in H; destruct H as [-> ->];
       split; [repeat split|]; split; [apply Hnot | auto]
     |];
     destruct (negb (S_ISDIR (st_mode (sced_st (sce_data sce))))); [request_unchanged|];
     destruct ((len (uri_path vr) =? 0)%Z || negb (ends_in_slash (uri_path vr)))%bool;
     [ intros H; apply Hgo in H; destruct H as [-> ->];
       split; [repeat split|]; split; [apply Hnot | auto]
     |];
     unfold li_vrequest_handle_direct; rewrite Hhandled; cbv zeta;
     destruct (li_etag_set_header h _ (sced_st (sce_data sce))) as [vr1 c] eqn:Hetag;
     apply li_etag_set_header_frame in Hetag;
     destruct Hetag as (Hm & Hh & Hp & Hu & Hs & Ho);
     destruct c;
     [ intros H; apply Hgo in H; destruct H as [-> ->];
       split; [repeat split; assumption|]; split; [apply Hnot|];
       do 3 right; left; repeat split; [exact Hh | exact Ho]
     |];
     destruct (classify h dd (sce_dirlist sce)) as [a|]; [|discriminate];
     destruct (render h dd vr1 sce a) as [vr2|] eqn:Hr; [|discriminate];
     intros H; apply Hgo in H; destruct H as [-> ->];
     destruct (render_shape _ _ _ _ _ _ Hr)
       as (? & ? & new & doc & _ & _ & -> & Hsmall & _);
     split; [repeat split; assumption|]; split; [apply Hnot|];
     do 4 right; split; [reflexivity|]; split; [exact Hs|]; split; [exact Hh|];
     exists new, doc; split; [cbn [out set_out]; now rewrite Ho | exact Hsmall]).
Qed.

Lemma dirlist_outcomes_witness :
  dirlist listing_server listing_data request
  = Some (LI_HANDLER_GO_ON, listing_rendered) /\
  physical_path listing_rendered = physical_path request /\
  http_status listing_rendered = 200 /\
  listing_rendered <> request.
Proof.
  assert (Hrun : dirlist listing_server listing_data request
                 = Some (LI_HANDLER_GO_ON, listing_rendered))
    by (vm_compute; reflexivity).
  split; [exact Hrun|].
  destruct (dirlist_outcomes listing_server listing_data request LI_HANDLER_GO_ON
              listing_rendered Hrun) as ((_ & Hpath & _) & _ & _).
  split; [exact Hpath|]. split; [reflexivity|].
  intros Heq. apply (f_equal handled) in Heq. vm_compute in Heq. discriminate Heq.
Defined.

(** When no entry of the listing has an empty name, every call of [dirlist]
    has a result: no read leaves a string and every index the rows are made
    from is one of the listing. *)
Theorem dirlist_defined h dd vr :
  (forall sce,
     li_stat_cache_get_dirlist h (physical_path vr) = LOOKUP_GO_ON sce ->
     Forall (fun e => sced_path e <> "") (sce_dirlist sce)) ->
  exists res vr', dirlist h dd vr = Some (res, vr').
Proof.
  intros Hnames. unfold dirlist.
  destruct (http_method vr); eauto;
    (destruct (handled vr) eqn:Hhandled; eauto;
     destruct (len (physical_path vr) =? 0)%Z; eauto;
     destruct (li_stat_cache_get_dirlist h (physical_path vr)) as [sce| |]; eauto;
     specialize (Hnames sce eq_refl);
     destruct (sced_failed (sce_data sce));
     [ destruct ((sced_err (sce_data sce) =? ENOENT)%Z
                 || (sced_err (sce_data sce) =? ENOTDIR)%Z)%bool; eauto;
       destruct (sced_err (sce_data sce) =? EACCES)%Z; eauto;
       unfold li_vrequest_handle_direct; rewrite Hhandled; eauto
     |];
     destruct (negb (S_ISDIR (st_mode (sced_st (sce_data sce))))); eauto;
     destruct ((len (uri_path vr) =? 0)%Z || negb (ends_in_slash (uri_path vr)))%bool;
     eauto;
     unfold li_vrequest_handle_direct; rewrite Hhandled; cbv zeta;
     destruct (li_etag_set_header h _ (sced_st (sce_data sce))) as [vr1 c];
     destruct c; eauto;
     destruct (classify_from_defined h dd (sce_dirlist sce) Hnames 0
                 {| directories := []; files := []; have_header := false;
                    have_readme := false |}) as [a Ha];
     fold (classify h dd (sce_dirlist sce)) in Ha; rewrite Ha;
     destruct (classify_inv _ _ _ _ Ha) as (Hd & Hf & _ & _);
     destruct (render_defined h dd vr1 sce a) as [vr2 ->];
     [ intros j Hj; apply in_app_or in Hj; destruct Hj as [Hj | Hj];
       [destruct (Hd j Hj) as (e & He & _) | destruct (Hf j Hj) as (e & He & _)];
       eauto
     | eauto ]).
Qed.

Lemma dirlist_defined_witness :
  (forall sce,
     li_stat_cache_get_dirlist listing_server (physical_path request) = LOOKUP_GO_ON sce ->
     Forall (fun e => sced_path e <> "") (sce_dirlist sce)) /\
  exists res vr', dirlist listing_server listing_data request = Some (res, vr').
Proof.
  assert (Hnames : forall sce,
            li_stat_cache_get_dirlist listing_server (physical_path request)
            = LOOKUP_GO_ON sce ->
            Forall (fun e => sced_path e <> "") (sce_dirlist sce)).
  { intros sce Hsce. injection Hsce as <-. repeat constructor; discriminate. }
  split; [exact Hnames|].
  apply (dirlist_defined listing_server listing_data request Hnames).
Defined.
